(** * CookLabel: single-object tracker of [libs/video_auto_annotation.py]

    A shallow embedding of the tracking engine (Kalman filter, confidence
    tiered IoU matcher, per-track state machine, per-frame driver) and the
    properties its specification states about it.

    Numbers.  Python [float] values (and the [np.float32] entries of the
    filter's arrays) are embedded as exact rationals [Q]: every arithmetic
    operation is the exact one, rounding is not represented.  Python [int]
    values are [Z].  Comparisons are the boolean ones of [Q] and [Z]. *)

From Stdlib Require Import ZArith QArith Qminmax Qfield Lqa Lia.
From Stdlib Require Import List String Bool Setoid Morphisms Sorted.
Import ListNotations.

Open Scope Q_scope.

(** Rationals stay folded under [simpl] and [cbn]. *)
Arguments Qplus : simpl never.
Arguments Qmult : simpl never.
Arguments Qminus : simpl never.
Arguments Qdiv : simpl never.
Arguments Qopp : simpl never.
Arguments Qinv : simpl never.
Arguments Qred : simpl never.
Arguments Qeq : simpl never.
Arguments Qle : simpl never.
Arguments Qlt : simpl never.
Arguments Qle_bool : simpl never.
Arguments Qeq_bool : simpl never.
Arguments Qcompare : simpl never.
Arguments Qmax : simpl never.
Arguments Qmin : simpl never.
Arguments inject_Z : simpl never.

(** ** Comparisons on floats *)

Definition Qleb (x y : Q) : bool := Qle_bool x y.
Definition Qltb (x y : Q) : bool := negb (Qle_bool y x).
Definition Qgeb (x y : Q) : bool := Qleb y x.
Definition Qgtb (x y : Q) : bool := Qltb y x.

Lemma Qleb_le x y : Qleb x y = true <-> x <= y.
Proof. apply Qle_bool_iff. Qed.

Lemma Qltb_lt x y : Qltb x y = true <-> x < y.
Proof.
  unfold Qltb. rewrite negb_true_iff.
  split; intro H.
  - apply Qnot_le_lt. intro L. apply Qle_bool_iff in L. congruence.
  - destruct (Qle_bool y x) eqn:E; trivial.
    apply Qle_bool_iff in E. apply Qle_not_lt in E. contradiction.
Qed.

Lemma Qltb_ge x y : Qltb x y = false <-> y <= x.
Proof.
  unfold Qltb. rewrite negb_false_iff. apply Qle_bool_iff.
Qed.

Lemma Qgtb_gt x y : Qgtb x y = true <-> y < x.
Proof. apply Qltb_lt. Qed.

Lemma Qgtb_le x y : Qgtb x y = false <-> x <= y.
Proof. apply Qltb_ge. Qed.

Lemma Qgeb_ge x y : Qgeb x y = true <-> y <= x.
Proof. apply Qleb_le. Qed.

(** Python's [max(a, b)] returns [b] only when [b > a]; [min(a, b)] returns
    [b] only when [b < a].  [Qmax] and [Qmin] choose the same way. *)
Definition py_max (a b : Q) : Q := Qmax a b.
Definition py_min (a b : Q) : Q := Qmin a b.

(** ** Data model *)

Definition BBox : Type := (Q * Q * Q * Q)%type.

Record DetectionBox := mkDetectionBox {
  det_x1 : Q;
  det_y1 : Q;
  det_x2 : Q;
  det_y2 : Q;
  det_confidence : Q;
  det_class_id : Z;
  det_class_name : string
}.

Record TrackingBox := mkTrackingBox {
  tb_track_id : Z;
  tb_x1 : Q;
  tb_y1 : Q;
  tb_x2 : Q;
  tb_y2 : Q;
  tb_confidence : Q;
  tb_class_id : Z;
  tb_class_name : string;
  tb_frame_id : Z
}.

(** The manual seed rectangle, a dict with exactly these keys. *)
Record ManualBox := mkManualBox {
  mb_x1 : Q;
  mb_y1 : Q;
  mb_x2 : Q;
  mb_y2 : Q;
  mb_class_id : Z;
  mb_class_name : string
}.

Definition det_box (d : DetectionBox) : BBox :=
  (det_x1 d, det_y1 d, det_x2 d, det_y2 d).

Definition tb_box (t : TrackingBox) : BBox :=
  (tb_x1 t, tb_y1 t, tb_x2 t, tb_y2 t).

(** What a Python call does: return a value or raise. *)
Inductive exn := LinAlgError.

Inductive result (A : Type) :=
| Returns (a : A)
| Raises (e : exn).
Arguments Returns {A} a.
Arguments Raises {A} e.

(** ** Matrices ([numpy] arrays, row major)

    An array holds each of its rationals in lowest terms ([Qred]); this
    changes no value and keeps the arithmetic executable. *)

Module Mat.

Definition vector := list Q.
Definition matrix := list (list Q).

Fixpoint dot (u v : vector) : Q :=
  match u, v with
  | a :: u', b :: v' => a * b + dot u' v'
  | _, _ => 0
  end.

Definition col (j : nat) (m : matrix) : vector :=
  map (fun row => nth j row 0) m.

Definition ncols (m : matrix) : nat := List.length (hd [] m).

(** [m.T] *)
Definition transpose (m : matrix) : matrix :=
  map (fun j => col j m) (seq 0 (ncols m)).

(** [np.dot a b] *)
Definition mmul (a b : matrix) : matrix :=
  map (fun row => map (fun j => Qred (dot row (col j b))) (seq 0 (ncols b))) a.

Fixpoint vzip (f : Q -> Q -> Q) (u v : vector) : vector :=
  match u, v with
  | a :: u', b :: v' => Qred (f a b) :: vzip f u' v'
  | _, _ => []
  end.

Fixpoint mzip (f : Q -> Q -> Q) (a b : matrix) : matrix :=
  match a, b with
  | r :: a', s :: b' => vzip f r s :: mzip f a' b'
  | _, _ => []
  end.

(** [a + b] and [a - b] on arrays of one shape. *)
Definition madd : matrix -> matrix -> matrix := mzip Qplus.
Definition msub : matrix -> matrix -> matrix := mzip Qminus.

(** [m * k] *)
Definition mscale (k : Q) (m : matrix) : matrix :=
  map (map (fun a => Qred (a * k))) m.

(** [np.eye n] *)
Definition eye (n : nat) : matrix :=
  map (fun i => map (fun j => if Nat.eqb i j then 1 else 0) (seq 0 n))
      (seq 0 n).

(** [m[i, j]] *)
Definition entry (m : matrix) (i j : nat) : Q := nth j (nth i m []) 0.

Fixpoint drop_nth {A} (n : nat) (l : list A) : list A :=
  match n, l with
  | _, [] => []
  | O, _ :: l' => l'
  | S n', a :: l' => a :: drop_nth n' l'
  end.

(** Row [i] and column [j] struck out. *)
Definition minor (i j : nat) (m : matrix) : matrix :=
  map (drop_nth j) (drop_nth i m).

(** Laplace expansion of the determinant along the first row; [n] is the
    size of the matrix. *)
Fixpoint laplace (det' : matrix -> Q) (sign : Q) (j : nat)
    (row : vector) (rest : matrix) : Q :=
  match row with
  | [] => 0
  | a :: row' =>
      sign * a * det' (map (drop_nth j) rest)
      + laplace det' (- sign) (S j) row' rest
  end.

Fixpoint det (n : nat) (m : matrix) : Q :=
  match n with
  | O => 1
  | S n' =>
      match m with
      | [] => 1
      | row :: rest => laplace (det n') 1 O row rest
      end
  end.

Definition sign_of (i j : nat) : Q :=
  if Nat.even (i + j) then 1 else - (1).

(** [np.linalg.inv m]: the exact inverse (adjugate over determinant);
    raises [LinAlgError] on a singular matrix. *)
Definition inv (m : matrix) : result matrix :=
  let n := List.length m in
  let d := det n m in
  if Qeq_bool d 0 then Raises LinAlgError
  else Returns
    (map (fun i =>
       map (fun j => Qred (sign_of i j * det (pred n) (minor j i m) / d))
           (seq 0 n))
       (seq 0 n)).

End Mat.

(** ** KalmanFilter *)

Module Kalman.
Import Mat.

(** State transition matrix [self.F]. *)
Definition F : matrix :=
  [ [1; 0; 0; 0; 1; 0; 0; 0];
    [0; 1; 0; 0; 0; 1; 0; 0];
    [0; 0; 1; 0; 0; 0; 1; 0];
    [0; 0; 0; 1; 0; 0; 0; 1];
    [0; 0; 0; 0; 1; 0; 0; 0];
    [0; 0; 0; 0; 0; 1; 0; 0];
    [0; 0; 0; 0; 0; 0; 1; 0];
    [0; 0; 0; 0; 0; 0; 0; 1] ].

(** Observation matrix [self.H]. *)
Definition H : matrix :=
  [ [1; 0; 0; 0; 0; 0; 0; 0];
    [0; 1; 0; 0; 0; 0; 0; 0];
    [0; 0; 1; 0; 0; 0; 0; 0];
    [0; 0; 0; 1; 0; 0; 0; 0] ].

(** [m[k:, k:] *= c] *)
Definition scale_from (k : nat) (c : Q) (m : matrix) : matrix :=
  map (fun i =>
    map (fun j =>
      let a := entry m i j in
      if (Nat.leb k i && Nat.leb k j)%bool then Qred (a * c) else a)
      (seq 0 (ncols m)))
    (seq 0 (List.length m)).

(** Process noise [self.Q]. *)
Definition Qn : matrix := scale_from 4 0.01 (mscale 0.1 (eye 8)).

(** Observation noise [self.R]. *)
Definition R : matrix := mscale 10 (eye 4).

Record KalmanFilter := mkKalmanFilter {
  kf_x : matrix;
  kf_P : matrix;
  is_initialized : bool
}.

(** [KalmanFilter.__init__] *)
Definition new : KalmanFilter :=
  {| kf_x := [[0]; [0]; [0]; [0]; [0]; [0]; [0]; [0]];
     kf_P := mscale 1000 (eye 8);
     is_initialized := false |}.

(** [KalmanFilter.initialize] *)
Definition initialize (self : KalmanFilter) (bbox : BBox) : KalmanFilter :=
  let '(x1, y1, x2, y2) := bbox in
  let center_x := (x1 + x2) / 2 in
  let center_y := (y1 + y2) / 2 in
  let width := x2 - x1 in
  let height := y2 - y1 in
  {| kf_x := [[Qred center_x]; [Qred center_y]; [Qred width]; [Qred height];
              [0]; [0]; [0]; [0]];
     kf_P := kf_P self;
     is_initialized := true |}.

Definition bbox_of_state (x : matrix) : BBox :=
  let center_x := entry x 0 0 in
  let center_y := entry x 1 0 in
  let width := entry x 2 0 in
  let height := entry x 3 0 in
  (center_x - width / 2, center_y - height / 2,
   center_x + width / 2, center_y + height / 2).

(** [KalmanFilter.predict]: the filter after the call and the returned box
    ([None] before initialisation). *)
Definition predict (self : KalmanFilter) : KalmanFilter * option BBox :=
  if negb (is_initialized self) then (self, None)
  else
    let x := mmul F (kf_x self) in
    let P := madd (mmul (mmul F (kf_P self)) (transpose F)) Qn in
    ({| kf_x := x; kf_P := P; is_initialized := true |},
     Some (bbox_of_state x)).

(** [KalmanFilter.update] *)
Definition update (self : KalmanFilter) (bbox : BBox)
  : KalmanFilter * result unit :=
  if negb (is_initialized self) then (initialize self bbox, Returns tt)
  else
    let '(x1, y1, x2, y2) := bbox in
    let center_x := (x1 + x2) / 2 in
    let center_y := (y1 + y2) / 2 in
    let width := x2 - x1 in
    let height := y2 - y1 in
    let z := [[Qred center_x]; [Qred center_y]; [Qred width]; [Qred height]] in
    let y := msub z (mmul H (kf_x self)) in
    let S := madd (mmul (mmul H (kf_P self)) (transpose H)) R in
    match inv S with
    | Raises e => (self, Raises e)
    | Returns Sinv =>
        let K := mmul (mmul (kf_P self) (transpose H)) Sinv in
        ({| kf_x := madd (kf_x self) (mmul K y);
            kf_P := msub (kf_P self) (mmul (mmul K H) (kf_P self));
            is_initialized := true |},
         Returns tt)
    end.

(** [KalmanFilter.get_current_bbox] *)
Definition get_current_bbox (self : KalmanFilter) : option BBox :=
  if negb (is_initialized self) then None
  else Some (bbox_of_state (kf_x self)).

End Kalman.

(** ** SingleObjectTracker *)

Inductive TrackState := tracked | lost.

(** The dict [self.target_track]. *)
Record Track := mkTrack {
  box : BBox;
  class_id : Z;
  class_name : string;
  disappeared : Z;
  confidence : Q;
  last_frame : Z;
  state : TrackState
}.

Inductive MatchSource :=
| none
| high_conf_same_class
| high_conf_diff_class
| low_conf_same_class
| recovery_match.

Record SingleObjectTracker := mkSingleObjectTracker {
  target_track : option Track;
  max_disappeared : Z;
  high_iou_threshold : Q;
  low_iou_threshold : Q;
  is_tracking : bool;
  track_id : Z;
  kalman_filter : Kalman.KalmanFilter;
  high_conf_threshold : Q;
  low_conf_threshold : Q
}.

(** [SingleObjectTracker.__init__]; the defaults are 30, 0.3 and 0.15. *)
Definition new_tracker (max_disappeared : Z)
    (high_iou_threshold low_iou_threshold : Q) : SingleObjectTracker :=
  {| target_track := None;
     max_disappeared := max_disappeared;
     high_iou_threshold := high_iou_threshold;
     low_iou_threshold := low_iou_threshold;
     is_tracking := false;
     track_id := 0;
     kalman_filter := Kalman.new;
     high_conf_threshold := 0.5;
     low_conf_threshold := 0.25 |}.

Definition default_tracker : SingleObjectTracker := new_tracker 30 0.3 0.15.

(** [SingleObjectTracker.calculate_iou] *)
Definition calculate_iou (box1 box2 : BBox) : Q :=
  let '(a1, b1, c1, d1) := box1 in
  let '(a2, b2, c2, d2) := box2 in
  let x1 := py_max a1 a2 in
  let y1 := py_max b1 b2 in
  let x2 := py_min c1 c2 in
  let y2 := py_min d1 d2 in
  if (Qgeb x1 x2 || Qgeb y1 y2)%bool then 0
  else
    let intersection := (x2 - x1) * (y2 - y1) in
    let area1 := (c1 - a1) * (d1 - b1) in
    let area2 := (c2 - a2) * (d2 - b2) in
    let union := area1 + area2 - intersection in
    if Qeq_bool union 0 then 0
    else intersection / union.

Definition set_track (self : SingleObjectTracker) (t : option Track)
    (tracking : bool) (kf : Kalman.KalmanFilter) : SingleObjectTracker :=
  {| target_track := t;
     max_disappeared := max_disappeared self;
     high_iou_threshold := high_iou_threshold self;
     low_iou_threshold := low_iou_threshold self;
     is_tracking := tracking;
     track_id := track_id self;
     kalman_filter := kf;
     high_conf_threshold := high_conf_threshold self;
     low_conf_threshold := low_conf_threshold self |}.

(** [SingleObjectTracker.initialize_target] *)
Definition initialize_target (self : SingleObjectTracker)
    (manual_box : ManualBox) (frame_id : Z) : SingleObjectTracker :=
  let bbox := (mb_x1 manual_box, mb_y1 manual_box,
               mb_x2 manual_box, mb_y2 manual_box) in
  set_track self
    (Some {| box := bbox;
             class_id := mb_class_id manual_box;
             class_name := mb_class_name manual_box;
             disappeared := 0;
             confidence := 1.0;
             last_frame := frame_id;
             state := tracked |})
    true
    (Kalman.initialize (kalman_filter self) bbox).

(** The three loop variables of the matching rounds of [update]. *)
Record Best := mkBest {
  best_match : option DetectionBox;
  best_iou : Q;
  match_source : MatchSource
}.

Definition no_best : Best :=
  {| best_match := None; best_iou := 0; match_source := none |}.

Definition is_none {A} (o : option A) : bool :=
  match o with None => true | Some _ => false end.

Section Matching.

Variable self : SingleObjectTracker.
Variable target_class_id : Z.
Variable reference_box : BBox.

(** Body of the first loop (high confidence detections). *)
Definition high_step (b : Best) (detection : DetectionBox) : Best :=
  let iou := calculate_iou reference_box (det_box detection) in
  if Z.eqb (det_class_id detection) target_class_id then
    if (Qgtb iou (best_iou b) && Qgtb iou (high_iou_threshold self))%bool
    then mkBest (Some detection) iou high_conf_same_class
    else b
  else if (is_none (best_match b)
           && Qgtb iou (high_iou_threshold self * 1.2))%bool
    then mkBest (Some detection) iou high_conf_diff_class
    else b.

(** Body of a same-class-only loop with IoU bar [thr]. *)
Definition same_class_step (thr : Q) (src : MatchSource)
    (b : Best) (detection : DetectionBox) : Best :=
  let iou := calculate_iou reference_box (det_box detection) in
  if Z.eqb (det_class_id detection) target_class_id then
    if (Qgtb iou (best_iou b) && Qgtb iou thr)%bool
    then mkBest (Some detection) iou src
    else b
  else b.

(** First round: high confidence detections, high IoU bar. *)
Definition tier1 (high_conf_detections : list DetectionBox) : Best :=
  fold_left high_step high_conf_detections no_best.

(** Second round: entered only when the first one matched nothing. *)
Definition tier2 (b : Best) (low_conf_detections : list DetectionBox) : Best :=
  if is_none (best_match b) then
    fold_left (same_class_step (low_iou_threshold self) low_conf_same_class)
              low_conf_detections b
  else b.

(** Third round: recovery of a target lost for fewer than 10 frames. *)
Definition tier3 (t : Track) (b : Best)
    (high_conf_detections low_conf_detections : list DetectionBox) : Best :=
  if (is_none (best_match b)
      && match state t with lost => true | tracked => false end
      && Z.ltb (disappeared t) 10)%bool then
    let relaxed_iou_threshold := py_max 0.1 (low_iou_threshold self * 0.7) in
    let all_detections := high_conf_detections ++ low_conf_detections in
    fold_left (same_class_step relaxed_iou_threshold recovery_match)
              all_detections b
  else b.

End Matching.

Definition high_conf (self : SingleObjectTracker)
    (detections : list DetectionBox) : list DetectionBox :=
  filter (fun d => Qgeb (det_confidence d) (high_conf_threshold self))
         detections.

Definition low_conf (self : SingleObjectTracker)
    (detections : list DetectionBox) : list DetectionBox :=
  filter (fun d => (Qleb (low_conf_threshold self) (det_confidence d)
                    && Qltb (det_confidence d) (high_conf_threshold self))%bool)
         detections.

(** Rounds one to three of [update] against the reference box. *)
Definition find_match (self : SingleObjectTracker) (t : Track)
    (reference_box : BBox) (detections : list DetectionBox) : Best :=
  let high_conf_detections := high_conf self detections in
  let low_conf_detections := low_conf self detections in
  let b1 := tier1 self (class_id t) reference_box high_conf_detections in
  let b2 := tier2 self (class_id t) reference_box b1 low_conf_detections in
  tier3 self (class_id t) reference_box t b2
        high_conf_detections low_conf_detections.

Definition box_tracking (self : SingleObjectTracker) (t : Track)
    (b : BBox) (conf : Q) (frame_id : Z) : TrackingBox :=
  let '(x1, y1, x2, y2) := b in
  {| tb_track_id := track_id self;
     tb_x1 := x1; tb_y1 := y1; tb_x2 := x2; tb_y2 := y2;
     tb_confidence := conf;
     tb_class_id := class_id t;
     tb_class_name := class_name t;
     tb_frame_id := frame_id |}.

(** [SingleObjectTracker.update]: the tracker after the call and what the
    call returns.  [predicted_bbox] is never [None] once the stored box has
    stood in for a missing prediction, so the last [else] of the source
    (the 0.1 decay on the stored box) cannot run and has no counterpart
    here.  A raising [KalmanFilter.update] leaves the track untouched. *)
Definition update (self : SingleObjectTracker)
    (detections : list DetectionBox) (frame_id : Z)
  : SingleObjectTracker * result (list TrackingBox) :=
  match is_tracking self, target_track self with
  | true, Some t =>
      let '(kf, predicted) := Kalman.predict (kalman_filter self) in
      let predicted_bbox :=
        match predicted with Some b => b | None => box t end in
      let b := find_match self t predicted_bbox detections in
      match best_match b with
      | Some m =>
          let matched_bbox := det_box m in
          match Kalman.update kf matched_bbox with
          | (kf', Raises e) => (set_track self (Some t) true kf', Raises e)
          | (kf', Returns _) =>
              let t' := {| box := matched_bbox;
                           class_id := class_id t;
                           class_name := class_name t;
                           disappeared := 0;
                           confidence := det_confidence m;
                           last_frame := frame_id;
                           state := tracked |} in
              let final_bbox :=
                match Kalman.get_current_bbox kf' with
                | Some kalman_bbox => kalman_bbox
                | None => matched_bbox
                end in
              (set_track self (Some t') true kf',
               Returns [box_tracking self t' final_bbox
                                     (det_confidence m) frame_id])
          end
      | None =>
          let t' := {| box := box t;
                       class_id := class_id t;
                       class_name := class_name t;
                       disappeared := disappeared t + 1;
                       confidence := confidence t;
                       last_frame := last_frame t;
                       state := lost |} in
          if Z.gtb (disappeared t') (max_disappeared self) then
            (set_track self None false kf, Returns [])
          else
            let conf :=
              py_max 0.1 (confidence t' - 0.05 * inject_Z (disappeared t')) in
            (set_track self (Some t') true kf,
             Returns [box_tracking self t' predicted_bbox conf frame_id])
      end
  | _, _ => (self, Returns [])
  end.

(** [SingleObjectTracker.reset] *)
Definition reset (self : SingleObjectTracker) : SingleObjectTracker :=
  set_track self None false Kalman.new.

(** ** AnnotationGenerator *)

(** A frame: [image.shape[:2]] and the pixels, which nothing here reads. *)
Record Image := mkImage {
  img_height : Z;
  img_width : Z;
  img_pixels : list Z
}.

(** One line of a label file: the class and the four clamped, normalised
    geometry values (the six-decimal rendering is not represented). *)
Record YoloLine := mkYoloLine {
  yl_class_id : Z;
  yl_center_x : Q;
  yl_center_y : Q;
  yl_width : Q;
  yl_height : Q
}.

Inductive FileContent :=
| LabelFile (lines : list YoloLine)
| ImageFile (image : Image).

(** The output directory: path and content of every file written so far.
    Writing never fails. *)
Definition FileSystem := list (string * FileContent).

Definition write_file (path : string) (c : FileContent) (fs : FileSystem)
  : FileSystem :=
  (path, c) :: filter (fun f => negb (String.eqb (fst f) path)) fs.

Definition is_label_file (f : string * FileContent) : bool :=
  match snd f with LabelFile _ => true | ImageFile _ => false end.

Definition label_files (fs : FileSystem) : FileSystem :=
  filter is_label_file fs.

(** What the code prints with a warning sign; the other prints are
    progress messages and are left out. *)
Inductive Message :=
| WarnNoManualBoxes
| WarnExtraManualBoxes (count : nat) (used_class : string)
| WarnNotInitialized
| WarnNoTrackingResult (frame_name : string).

(** [AnnotationGenerator.convert_to_yolo_format], for an image of
    non-zero width and height. *)
Definition convert_to_yolo_format (tracking_box : TrackingBox)
    (image_width image_height : Z) : YoloLine :=
  let center_x :=
    (tb_x1 tracking_box + tb_x2 tracking_box) / 2 / inject_Z image_width in
  let center_y :=
    (tb_y1 tracking_box + tb_y2 tracking_box) / 2 / inject_Z image_height in
  let width :=
    (tb_x2 tracking_box - tb_x1 tracking_box) / inject_Z image_width in
  let height :=
    (tb_y2 tracking_box - tb_y1 tracking_box) / inject_Z image_height in
  {| yl_class_id := tb_class_id tracking_box;
     yl_center_x := py_max 0 (py_min 1 center_x);
     yl_center_y := py_max 0 (py_min 1 center_y);
     yl_width := py_max 0 (py_min 1 width);
     yl_height := py_max 0 (py_min 1 height) |}.

Definition labels_path (output_dir frame_name : string) : string :=
  (output_dir ++ "/labels/" ++ frame_name ++ ".txt")%string.

Definition images_path (output_dir frame_name : string) : string :=
  (output_dir ++ "/images/" ++ frame_name ++ ".jpg")%string.

(** [AnnotationGenerator.save_frame_annotation]: the file system and the
    console after the call, and the returned flag. *)
Definition save_frame_annotation (output_dir : string)
    (fs : FileSystem) (console : list Message)
    (frame_name : string) (tracking_results : list TrackingBox)
    (image_width image_height : Z)
  : FileSystem * list Message * bool :=
  match tracking_results with
  | [] => (fs, console ++ [WarnNoTrackingResult frame_name], false)
  | _ =>
      let annotation_file := labels_path output_dir frame_name in
      let lines :=
        map (fun tracking_box =>
               convert_to_yolo_format tracking_box image_width image_height)
            tracking_results in
      (write_file annotation_file (LabelFile lines) fs, console, true)
  end.

(** ** VideoAutoAnnotator *)

(** The dict [self.statistics]. *)
Record Statistics := mkStatistics {
  total_frames : Z;
  total_tracks : Z;
  active_tracks : Z;
  total_detections : Z;
  high_conf_detections : Z;
  low_conf_detections : Z;
  successful_tracks : Z;
  lost_tracks : Z;
  saved_images : Z;
  saved_annotations : Z;
  saved_labels : Z;
  tracking_start_frame : Z;
  tracking_end_frame : Z;
  target_class : string;
  confidence_sum : Q;
  tracking_success_rate : Q
}.

Record VideoAutoAnnotator := mkVideoAutoAnnotator {
  detector : Image -> list DetectionBox;
  tracker : SingleObjectTracker;
  output_dir : string;
  frame_count : Z;
  tracking_history : list TrackingBox;
  is_initialized : bool;
  statistics : Statistics;
  files : FileSystem;
  console : list Message
}.

(** The annotator after a print. *)
Definition with_console (a : VideoAutoAnnotator) (c : list Message)
  : VideoAutoAnnotator :=
  {| detector := detector a;
     tracker := tracker a;
     output_dir := output_dir a;
     frame_count := frame_count a;
     tracking_history := tracking_history a;
     is_initialized := is_initialized a;
     statistics := statistics a;
     files := files a;
     console := c |}.

(** [VideoAutoAnnotator.__init__]; the defaults of the two IoU thresholds
    are 0.5 and 0.2 here, and 30 for [max_disappeared]. *)
Definition new_annotator (detect : Image -> list DetectionBox)
    (output_dir : string) (high_iou_threshold low_iou_threshold : Q)
    (max_disappeared : Z) : VideoAutoAnnotator :=
  {| detector := detect;
     tracker := new_tracker max_disappeared high_iou_threshold
                            low_iou_threshold;
     output_dir := output_dir;
     frame_count := 0;
     tracking_history := [];
     is_initialized := false;
     statistics :=
       {| total_frames := 0; total_tracks := 0; active_tracks := 0;
          total_detections := 0; high_conf_detections := 0;
          low_conf_detections := 0; successful_tracks := 0;
          lost_tracks := 0; saved_images := 0; saved_annotations := 0;
          saved_labels := 0; tracking_start_frame := 0;
          tracking_end_frame := 0; target_class := "";
          confidence_sum := 0; tracking_success_rate := 0 |};
     files := [];
     console := [] |}.

(** Truth value of an optional string argument. *)
Definition truthy (frame_name : option string) : bool :=
  match frame_name with
  | None => false
  | Some s => negb (String.eqb s "")
  end.

Definition name_of (frame_name : option string) : string :=
  match frame_name with Some s => s | None => "" end.

(** [VideoAutoAnnotator.initialize_from_manual_annotation] *)
Definition initialize_from_manual_annotation (self : VideoAutoAnnotator)
    (image : Image) (manual_boxes : list ManualBox)
  : VideoAutoAnnotator * result (list TrackingBox) :=
  match manual_boxes with
  | [] =>
      (with_console self (console self ++ [WarnNoManualBoxes]), Returns [])
  | target_box :: others =>
      let console1 :=
        if Nat.ltb 1 (List.length manual_boxes)
        then console self
               ++ [WarnExtraManualBoxes (List.length manual_boxes)
                                        (mb_class_name target_box)]
        else console self in
      let tracker1 :=
        initialize_target (tracker self) target_box (frame_count self) in
      let st := statistics self in
      let tracking_results :=
        [ {| tb_track_id := track_id tracker1;
             tb_x1 := mb_x1 target_box;
             tb_y1 := mb_y1 target_box;
             tb_x2 := mb_x2 target_box;
             tb_y2 := mb_y2 target_box;
             tb_confidence := 1.0;
             tb_class_id := mb_class_id target_box;
             tb_class_name := mb_class_name target_box;
             tb_frame_id := frame_count self |} ] in
      ({| detector := detector self;
          tracker := tracker1;
          output_dir := output_dir self;
          frame_count := frame_count self + 1;
          tracking_history := tracking_history self ++ tracking_results;
          is_initialized := true;
          statistics :=
            {| total_frames := total_frames st;
               total_tracks := 1;
               active_tracks := 1;
               total_detections := total_detections st;
               high_conf_detections := high_conf_detections st + 1;
               low_conf_detections := low_conf_detections st;
               successful_tracks := successful_tracks st;
               lost_tracks := lost_tracks st;
               saved_images := saved_images st;
               saved_annotations := saved_annotations st;
               saved_labels := saved_labels st;
               tracking_start_frame := frame_count self;
               tracking_end_frame := tracking_end_frame st;
               target_class := mb_class_name target_box;
               confidence_sum := confidence_sum st + 1.0;
               tracking_success_rate := tracking_success_rate st |};
          files := files self;
          console := console1 |},
       Returns tracking_results)
  end.

Definition count_if (p : DetectionBox -> bool) (l : list DetectionBox) : Z :=
  Z.of_nat (List.length (filter p l)).

Definition sum_confidence (l : list TrackingBox) (acc : Q) : Q :=
  fold_left (fun s r => s + tb_confidence r) l acc.

Definition nonempty {A} (l : list A) : bool :=
  match l with [] => false | _ => true end.

(** [VideoAutoAnnotator.process_frame] *)
Definition process_frame (self : VideoAutoAnnotator) (image : Image)
    (frame_name : option string) (save_annotation save_image : bool)
  : VideoAutoAnnotator * result (list TrackingBox) :=
  if negb (is_initialized self) then
    (with_console self (console self ++ [WarnNotInitialized]), Returns [])
  else
    let detections := detector self image in
    let st := statistics self in
    let total_detections1 :=
      (total_detections st + Z.of_nat (List.length detections))%Z in
    let high_conf_threshold := 0.6 in
    let low_conf_threshold := 0.3 in
    let high1 :=
      (high_conf_detections st
       + count_if (fun d => Qgeb (det_confidence d) high_conf_threshold)
                  detections)%Z in
    let low1 :=
      (low_conf_detections st
       + count_if (fun d =>
                     (negb (Qgeb (det_confidence d) high_conf_threshold)
                      && Qgeb (det_confidence d) low_conf_threshold)%bool)
                  detections)%Z in
    match update (tracker self) detections (frame_count self) with
    | (tracker1, Raises e) =>
        ({| detector := detector self;
            tracker := tracker1;
            output_dir := output_dir self;
            frame_count := frame_count self;
            tracking_history := tracking_history self;
            is_initialized := is_initialized self;
            statistics :=
              {| total_frames := total_frames st;
                 total_tracks := total_tracks st;
                 active_tracks := active_tracks st;
                 total_detections := total_detections1;
                 high_conf_detections := high1;
                 low_conf_detections := low1;
                 successful_tracks := successful_tracks st;
                 lost_tracks := lost_tracks st;
                 saved_images := saved_images st;
                 saved_annotations := saved_annotations st;
                 saved_labels := saved_labels st;
                 tracking_start_frame := tracking_start_frame st;
                 tracking_end_frame := tracking_end_frame st;
                 target_class := target_class st;
                 confidence_sum := confidence_sum st;
                 tracking_success_rate := tracking_success_rate st |};
            files := files self;
            console := console self |},
         Raises e)
    | (tracker1, Returns tracking_results) =>
        let found := nonempty tracking_results in
        let files1 :=
          if (save_image && truthy frame_name)%bool
          then write_file (images_path (output_dir self) (name_of frame_name))
                          (ImageFile image) (files self)
          else files self in
        let saved_images1 :=
          if (save_image && truthy frame_name)%bool
          then (saved_images st + 1)%Z else saved_images st in
        let '(files2, console2, annotation_saved) :=
          if (save_annotation && truthy frame_name)%bool
          then save_frame_annotation (output_dir self) files1 (console self)
                 (name_of frame_name) tracking_results
                 (img_width image) (img_height image)
          else (files1, console self, false) in
        ({| detector := detector self;
            tracker := tracker1;
            output_dir := output_dir self;
            frame_count := frame_count self + 1;
            tracking_history := tracking_history self ++ tracking_results;
            is_initialized := is_initialized self;
            statistics :=
              {| total_frames := frame_count self + 1;
                 total_tracks := total_tracks st;
                 active_tracks := if found then 1 else 0;
                 total_detections := total_detections1;
                 high_conf_detections := high1;
                 low_conf_detections := low1;
                 successful_tracks :=
                   if found then (successful_tracks st + 1)%Z
                   else successful_tracks st;
                 lost_tracks :=
                   if found then lost_tracks st else (lost_tracks st + 1)%Z;
                 saved_images := saved_images1;
                 saved_annotations :=
                   if annotation_saved then (saved_annotations st + 1)%Z
                   else saved_annotations st;
                 saved_labels :=
                   if annotation_saved then (saved_labels st + 1)%Z
                   else saved_labels st;
                 tracking_start_frame := tracking_start_frame st;
                 tracking_end_frame := frame_count self;
                 target_class := target_class st;
                 confidence_sum :=
                   if found
                   then sum_confidence tracking_results (confidence_sum st)
                   else confidence_sum st;
                 tracking_success_rate := tracking_success_rate st |};
            files := files2;
            console := console2 |},
         Returns tracking_results)
    end.

(** [VideoAutoAnnotator.reset_tracker] *)
Definition reset_tracker (self : VideoAutoAnnotator) : VideoAutoAnnotator :=
  {| detector := detector self;
     tracker := reset (tracker self);
     output_dir := output_dir self;
     frame_count := 0;
     tracking_history := [];
     is_initialized := false;
     statistics := statistics self;
     files := files self;
     console := console self |}.





(** * Properties *)

(** ** Kalman filter: seed and read back *)

Definition BBox_eq (a b : BBox) : Prop :=
  let '(a1, a2, a3, a4) := a in
  let '(b1, b2, b3, b4) := b in
  a1 == b1 /\ a2 == b2 /\ a3 == b3 /\ a4 == b4.

(** C9.  For every box [(x1, y1, x2, y2)], [initialize] followed at once by
    [get_current_bbox] (no [predict] in between) returns a box, and that box
    is the seed box: each coordinate has the same value.  Arithmetic is
    exact here, so the round trip is the identity; what a float execution
    adds is rounding only. *)
Theorem kalman_initialize_round_trip :
  forall (kf : Kalman.KalmanFilter) (bbox : BBox),
    exists b,
      Kalman.get_current_bbox (Kalman.initialize kf bbox) = Some b
      /\ BBox_eq b bbox.
Proof.
  intros kf [[[x1 y1] x2] y2].
  eexists. split.
  - reflexivity.
  - unfold Kalman.bbox_of_state, Mat.entry, BBox_eq; simpl.
    rewrite !Qred_correct.
    repeat split; field.
Qed.

(** ** Calling [process_frame] before seeding *)

Definition blank_image : Image :=
  {| img_height := 480; img_width := 640; img_pixels := [] |}.

Definition no_detections : Image -> list DetectionBox := fun _ => [].

(** An annotator as the constructor leaves it, with its default
    thresholds. *)
Definition fresh_annotator : VideoAutoAnnotator :=
  new_annotator no_detections "out" 0.5 0.2 30.

(** C2, as stated, fails: on a freshly constructed annotator
    [process_frame] raises nothing, it returns the empty list. *)
Lemma process_frame_unseeded_does_not_raise :
  is_initialized fresh_annotator = false
  /\ snd (process_frame fresh_annotator blank_image (Some "f0"%string) true true)
     = Returns []
  /\ forall e,
       snd (process_frame fresh_annotator blank_image (Some "f0"%string) true true)
       <> Raises e.
Proof.
  split; [reflexivity|]. split; [reflexivity|].
  intros e; discriminate.
Qed.

(** C2, amended.  A call to [process_frame] made before
    [initialize_from_manual_annotation] does not raise: it prints the
    "not initialised" warning, returns the empty list and leaves the
    tracker, the counters, the history and the files as they were. *)
Theorem process_frame_unseeded_returns_empty :
  forall (self : VideoAutoAnnotator) (image : Image)
         (frame_name : option string) (save_annotation save_image : bool),
    is_initialized self = false ->
    process_frame self image frame_name save_annotation save_image
    = (with_console self (console self ++ [WarnNotInitialized]), Returns []).
Proof.
  intros self image frame_name sa si Hinit.
  unfold process_frame. rewrite Hinit. reflexivity.
Qed.

Lemma process_frame_unseeded_returns_empty_witness :
  process_frame fresh_annotator blank_image (Some "f0"%string) true true
  = (with_console fresh_annotator [WarnNotInitialized], Returns []).
Proof.
  apply (process_frame_unseeded_returns_empty
           fresh_annotator blank_image (Some "f0"%string) true true).
  reflexivity.
Defined.

(** ** Seeding from the manual boxes *)

Definition manual_bbox (b : ManualBox) : BBox :=
  (mb_x1 b, mb_y1 b, mb_x2 b, mb_y2 b).

(** The specification's notion of a usable seed: positive width and
    height.  The code has no such test. *)
Definition geometrically_valid (b : ManualBox) : bool :=
  (Qltb (mb_x1 b) (mb_x2 b) && Qltb (mb_y1 b) (mb_y2 b))%bool.

Definition inverted_seed : ManualBox :=
  {| mb_x1 := 50; mb_y1 := 50; mb_x2 := 40; mb_y2 := 40;
     mb_class_id := 1; mb_class_name := "bowl" |}.

Definition cup_seed : ManualBox :=
  {| mb_x1 := 100; mb_y1 := 100; mb_x2 := 200; mb_y2 := 200;
     mb_class_id := 41; mb_class_name := "cup" |}.

(** The track [initialize_target] creates from a seed box. *)
Definition seeded_track (b : ManualBox) (frame_id : Z) : Track :=
  {| box := manual_bbox b;
     class_id := mb_class_id b;
     class_name := mb_class_name b;
     disappeared := 0;
     confidence := 1.0;
     last_frame := frame_id;
     state := tracked |}.

Definition seed_result (self : VideoAutoAnnotator) (b : ManualBox)
  : TrackingBox :=
  {| tb_track_id := track_id (tracker self);
     tb_x1 := mb_x1 b; tb_y1 := mb_y1 b; tb_x2 := mb_x2 b; tb_y2 := mb_y2 b;
     tb_confidence := 1.0;
     tb_class_id := mb_class_id b;
     tb_class_name := mb_class_name b;
     tb_frame_id := frame_count self |}.

(** C6, as stated, fails: with an inverted box ahead of a valid one, the
    tracker is seeded from the inverted box, not from the first valid one;
    and a list with no valid box at all, or no box, makes the call return
    normally. *)
Lemma seed_is_first_box_even_if_invalid :
  find geometrically_valid [inverted_seed; cup_seed] = Some cup_seed
  /\ target_track
       (tracker (fst (initialize_from_manual_annotation
                        fresh_annotator blank_image
                        [inverted_seed; cup_seed])))
     = Some (seeded_track inverted_seed 0)
  /\ find geometrically_valid [inverted_seed] = None
  /\ snd (initialize_from_manual_annotation
            fresh_annotator blank_image [inverted_seed])
     = Returns [seed_result fresh_annotator inverted_seed]
  /\ snd (initialize_from_manual_annotation fresh_annotator blank_image [])
     = Returns [].
Proof.
  repeat split; reflexivity.
Qed.

(** C6, amended.  For every list of manual boxes the call returns
    normally.  On the empty list it prints a warning, seeds nothing and
    returns the empty list.  Otherwise the tracker is seeded from the first
    box of the list, whatever its geometry; the other boxes are dropped,
    with a warning when there are any; the call returns the seed as its one
    tracking box. *)
Theorem seed_is_first_box :
  forall (self : VideoAutoAnnotator) (image : Image)
         (manual_boxes : list ManualBox),
    match manual_boxes with
    | [] =>
        initialize_from_manual_annotation self image manual_boxes
        = (with_console self (console self ++ [WarnNoManualBoxes]),
           Returns [])
    | b :: others =>
        let self' :=
          fst (initialize_from_manual_annotation self image manual_boxes) in
        snd (initialize_from_manual_annotation self image manual_boxes)
        = Returns [seed_result self b]
        /\ target_track (tracker self')
           = Some (seeded_track b (frame_count self))
        /\ is_tracking (tracker self') = true
        /\ Kalman.is_initialized (kalman_filter (tracker self')) = true
        /\ is_initialized self' = true
        /\ console self'
           = console self
             ++ match others with
                | [] => []
                | _ :: _ =>
                    [WarnExtraManualBoxes (List.length manual_boxes)
                                          (mb_class_name b)]
                end
    end.
Proof.
  intros self image [|b others].
  - reflexivity.
  - cbn [initialize_from_manual_annotation fst snd].
    repeat split; try reflexivity.
    destruct others; cbn; [now rewrite app_nil_r | reflexivity].
Qed.

(** ** Annotation files *)

Lemma save_frame_annotation_flag :
  forall od fs c name results w h,
    snd (save_frame_annotation od fs c name results w h) = nonempty results.
Proof. intros; destruct results; reflexivity. Qed.

Lemma save_frame_annotation_empty :
  forall od fs c name w h,
    save_frame_annotation od fs c name [] w h
    = (fs, c ++ [WarnNoTrackingResult name], false).
Proof. reflexivity. Qed.

Lemma label_files_write_image :
  forall path image fs f,
    In f (label_files (write_file path (ImageFile image) fs)) ->
    In f (label_files fs).
Proof.
  intros path image fs f. unfold label_files, write_file. cbn.
  rewrite !filter_In. tauto.
Qed.

(** The label lines [save_frame_annotation] writes for a result list. *)
Definition label_lines (results : list TrackingBox) (image : Image)
  : list YoloLine :=
  map (fun tracking_box =>
         convert_to_yolo_format tracking_box (img_width image)
                                (img_height image))
      results.

(** C7.  Whatever the flags, a call of [process_frame] whose result list is
    empty creates no label file: every label file present after the call
    was there before it.  And [saved_annotations] either keeps its value or
    grows by one; it grows only if [save_annotation] was set, the result
    list was not empty, [save_frame_annotation] returned true on it, and
    the label file is there after the call. *)
Theorem no_annotation_for_empty_result :
  forall (self : VideoAutoAnnotator) (image : Image)
         (frame_name : option string) (save_annotation save_image : bool)
         (self' : VideoAutoAnnotator) (r : result (list TrackingBox)),
    process_frame self image frame_name save_annotation save_image
    = (self', r) ->
    (r = Returns [] ->
     forall f, In f (label_files (files self')) ->
               In f (label_files (files self)))
    /\ (saved_annotations (statistics self')
        = saved_annotations (statistics self)
        \/ (saved_annotations (statistics self')
            = (saved_annotations (statistics self) + 1)%Z
            /\ save_annotation = true
            /\ exists name results,
                 frame_name = Some name
                 /\ r = Returns results
                 /\ results <> []
                 /\ (forall fs c,
                       snd (save_frame_annotation (output_dir self) fs c name
                              results (img_width image) (img_height image))
                       = true)
                 /\ In (labels_path (output_dir self) name,
                        LabelFile (label_lines results image))
                       (files self'))).
Proof.
  intros self image frame_name sa si self' r.
  unfold process_frame.
  destruct (is_initialized self); cbn [negb].
  2:{ intros E; inversion E; subst; clear E. cbn. split; auto. }
  destruct (update (tracker self) (detector self image) (frame_count self))
    as [tracker1 [results|e]].
  2:{ intros E; inversion E; subst; clear E. cbn.
      split; [discriminate | auto]. }
  set (files1 := if (si && truthy frame_name)%bool
                 then write_file _ _ _ else _).
  assert (Hfiles1 : forall f, In f (label_files files1) ->
                              In f (label_files (files self))).
  { intros f. subst files1. destruct (si && truthy frame_name)%bool; trivial.
    apply label_files_write_image. }
  clearbody files1.
  destruct (sa && truthy frame_name)%bool eqn:Esa.
  - apply andb_true_iff in Esa as [-> Hname].
    destruct frame_name as [name|]; [|discriminate]. cbn [name_of].
    destruct results as [|tb results].
    + rewrite save_frame_annotation_empty.
      intros E; inversion E; subst; clear E.
      cbn [files statistics saved_annotations]. split; auto.
    + cbn [save_frame_annotation].
      intros E; inversion E; subst; clear E.
      cbn [files statistics saved_annotations]. split; [discriminate|].
      right. split; [reflexivity|]. split; [reflexivity|].
      exists name, (tb :: results).
      repeat split; try reflexivity; try discriminate.
      left. reflexivity.
  - intros E; inversion E; subst; clear E.
    cbn [files statistics saved_annotations]. split; auto.
Qed.

Definition strict_annotator : VideoAutoAnnotator :=
  new_annotator no_detections "out" 0.5 0.2 0.

(** Seeded on a cup, with [max_disappeared = 0]: the first miss ends the
    track. *)
Definition strict_seeded : VideoAutoAnnotator :=
  fst (initialize_from_manual_annotation strict_annotator blank_image
         [cup_seed]).

Lemma no_annotation_for_empty_result_witness :
  snd (process_frame strict_seeded blank_image (Some "f1"%string) true true)
  = Returns []
  /\ forall f,
       In f (label_files
               (files (fst (process_frame strict_seeded blank_image
                              (Some "f1"%string) true true)))) ->
       In f (label_files (files strict_seeded)).
Proof.
  split.
  - vm_compute. reflexivity.
  - apply (proj1 (no_annotation_for_empty_result
                    strict_seeded blank_image (Some "f1"%string) true true
                    _ _ (surjective_pairing _))).
    vm_compute. reflexivity.
Defined.

(** ** The track state machine *)

(** The box the matching rounds compare against: the Kalman prediction,
    or the stored box when the filter has none. *)
Definition reference_box (self : SingleObjectTracker) (t : Track) : BBox :=
  match snd (Kalman.predict (kalman_filter self)) with
  | Some b => b
  | None => box t
  end.

(** The detection [update] associates with the track on this frame. *)
Definition matched (self : SingleObjectTracker) (t : Track)
    (detections : list DetectionBox) : option DetectionBox :=
  best_match (find_match self t (reference_box self t) detections).

Definition missed_track (t : Track) : Track :=
  {| box := box t;
     class_id := class_id t;
     class_name := class_name t;
     disappeared := disappeared t + 1;
     confidence := confidence t;
     last_frame := last_frame t;
     state := lost |}.

Lemma update_not_tracking :
  forall self detections frame_id,
    is_tracking self = false ->
    update self detections frame_id = (self, Returns []).
Proof.
  intros self detections frame_id H. unfold update. now rewrite H.
Qed.

Lemma update_miss :
  forall self detections frame_id t,
    is_tracking self = true ->
    target_track self = Some t ->
    matched self t detections = None ->
    update self detections frame_id
    = if Z.gtb (disappeared t + 1) (max_disappeared self)
      then (set_track self None false
                      (fst (Kalman.predict (kalman_filter self))),
            Returns [])
      else (set_track self (Some (missed_track t)) true
                      (fst (Kalman.predict (kalman_filter self))),
            Returns [box_tracking self (missed_track t)
                       (reference_box self t)
                       (py_max 0.1 (confidence t
                                    - 0.05 * inject_Z (disappeared t + 1)))
                       frame_id]).
Proof.
  intros self detections frame_id t Htr Ht Hm.
  unfold matched, reference_box in *. unfold update. rewrite Htr, Ht.
  destruct (Kalman.predict (kalman_filter self)) as [kf predicted].
  cbn [fst snd] in *. rewrite Hm. reflexivity.
Qed.

Lemma tb_box_box_tracking :
  forall self t b conf frame_id,
    tb_box (box_tracking self t b conf frame_id) = b.
Proof. intros self t [[[x1 y1] x2] y2] conf frame_id. reflexivity. Qed.

Lemma tb_confidence_box_tracking :
  forall self t b conf frame_id,
    tb_confidence (box_tracking self t b conf frame_id) = conf.
Proof. intros self t [[[x1 y1] x2] y2] conf frame_id. reflexivity. Qed.

Lemma predict_initialized :
  forall kf,
    Kalman.is_initialized kf = true ->
    exists b, snd (Kalman.predict kf) = Some b
              /\ Kalman.is_initialized (fst (Kalman.predict kf)) = true.
Proof.
  intros kf H. unfold Kalman.predict. rewrite H. cbn. eauto.
Qed.

Lemma update_initialized :
  forall kf bbox,
    Kalman.is_initialized (fst (Kalman.update kf bbox)) = true.
Proof.
  intros kf [[[x1 y1] x2] y2]. unfold Kalman.update.
  destruct (Kalman.is_initialized kf) eqn:E; cbn [negb]; [|reflexivity].
  destruct (Mat.inv _); [reflexivity | exact E].
Qed.

(** The trackers the operations of [SingleObjectTracker] can produce. *)
Inductive tracker_reachable : SingleObjectTracker -> Prop :=
| reach_new_tracker max_disappeared high_iou_threshold low_iou_threshold :
    tracker_reachable
      (new_tracker max_disappeared high_iou_threshold low_iou_threshold)
| reach_initialize_target self manual_box frame_id :
    tracker_reachable self ->
    tracker_reachable (initialize_target self manual_box frame_id)
| reach_tracker_update self detections frame_id :
    tracker_reachable self ->
    tracker_reachable (fst (update self detections frame_id))
| reach_reset self :
    tracker_reachable self ->
    tracker_reachable (reset self).

(** While it tracks, a tracker has a track and an initialised filter. *)
Lemma tracking_has_track_and_filter :
  forall self,
    tracker_reachable self ->
    is_tracking self = true ->
    Kalman.is_initialized (kalman_filter self) = true
    /\ exists t, target_track self = Some t.
Proof.
  induction 1 as [| self b f _ _ | self detections f _ IH | self _ _];
    cbn; try discriminate.
  - intros _. split; [reflexivity | eauto].
  - unfold update.
    destruct (is_tracking self) eqn:Htr;
      [|cbn [fst]; rewrite Htr; discriminate].
    destruct (target_track self) as [t|] eqn:Ht;
      [|destruct (IH eq_refl) as [_ [t' Ht']]; discriminate].
    destruct (IH eq_refl) as [Hkf _].
    destruct (predict_initialized _ Hkf) as [b [_ Hkf1]].
    destruct (Kalman.predict (kalman_filter self)) as [kf predicted].
    cbn [fst] in Hkf1.
    destruct (best_match _) as [m|].
    + pose proof (update_initialized kf (det_box m)) as Hu.
      destruct (Kalman.update kf (det_box m)) as [kf' [[]|e]];
        cbn; intros _; (split; [exact Hu | eauto]).
    + destruct (Z.gtb _ _); cbn; [discriminate|].
      intros _. split; [exact Hkf1 | eauto].
Qed.

(** C4.  Take a tracker the operations of the class can produce, and a
    frame on which it is alive (tracking when the call starts and still
    tracking when it ends) and no detection is matched.  Then
    [disappeared] grows by exactly one and the call returns exactly one
    tracking box; its coordinates are the box [predict] returned and its
    confidence is [max(0.1, c - 0.05 * d)], with [c] the confidence stored
    at the last match and [d] the count after the increment. *)
Theorem miss_emits_decayed_prediction :
  forall (self : SingleObjectTracker) (detections : list DetectionBox)
         (frame_id : Z) (t : Track),
    tracker_reachable self ->
    is_tracking self = true ->
    target_track self = Some t ->
    matched self t detections = None ->
    is_tracking (fst (update self detections frame_id)) = true ->
    exists predicted tb t',
      snd (Kalman.predict (kalman_filter self)) = Some predicted
      /\ snd (update self detections frame_id) = Returns [tb]
      /\ target_track (fst (update self detections frame_id)) = Some t'
      /\ disappeared t' = (disappeared t + 1)%Z
      /\ confidence t' = confidence t
      /\ tb_box tb = predicted
      /\ tb_confidence tb
         = py_max 0.1 (confidence t - 0.05 * inject_Z (disappeared t + 1)).
Proof.
  intros self detections frame_id t Hreach Htr Ht Hm Halive.
  destruct (tracking_has_track_and_filter _ Hreach Htr) as [Hkf _].
  destruct (predict_initialized _ Hkf) as [predicted [Hp _]].
  rewrite (update_miss _ _ _ _ Htr Ht Hm) in *.
  destruct (Z.gtb (disappeared t + 1) (max_disappeared self)).
  - cbn in Halive. discriminate.
  - exists predicted. eexists. exists (missed_track t). cbn [fst snd].
    split; [exact Hp|]. split; [reflexivity|].
    split; [reflexivity|]. split; [reflexivity|]. split; [reflexivity|].
    rewrite tb_box_box_tracking, tb_confidence_box_tracking.
    unfold reference_box. rewrite Hp. split; reflexivity.
Qed.

(** A tracker with the default parameters, seeded on a cup at frame 0. *)
Definition seeded_tracker : SingleObjectTracker :=
  initialize_target default_tracker cup_seed 0.

Lemma miss_emits_decayed_prediction_witness :
  exists predicted tb t',
    snd (Kalman.predict (kalman_filter seeded_tracker)) = Some predicted
    /\ snd (update seeded_tracker [] 1) = Returns [tb]
    /\ target_track (fst (update seeded_tracker [] 1)) = Some t'
    /\ disappeared t' = (disappeared (seeded_track cup_seed 0) + 1)%Z
    /\ confidence t' = confidence (seeded_track cup_seed 0)
    /\ tb_box tb = predicted
    /\ tb_confidence tb
       = py_max 0.1
           (confidence (seeded_track cup_seed 0)
            - 0.05 * inject_Z (disappeared (seeded_track cup_seed 0) + 1)).
Proof.
  apply (miss_emits_decayed_prediction
           seeded_tracker [] 1 (seeded_track cup_seed 0)).
  - apply reach_initialize_target, reach_new_tracker.
  - reflexivity.
  - reflexivity.
  - vm_compute. reflexivity.
  - vm_compute. reflexivity.
Defined.

(** One call of [process_frame]. *)
Record FrameCall := mkFrameCall {
  fc_image : Image;
  fc_frame_name : option string;
  fc_save_annotation : bool;
  fc_save_image : bool
}.

(** A sequence of [process_frame] calls on one annotator: the annotator at
    the end and what each call did. *)
Fixpoint run_frames (a : VideoAutoAnnotator) (calls : list FrameCall)
  : VideoAutoAnnotator * list (result (list TrackingBox)) :=
  match calls with
  | [] => (a, [])
  | c :: calls' =>
      let '(a1, r) :=
        process_frame a (fc_image c) (fc_frame_name c)
                      (fc_save_annotation c) (fc_save_image c) in
      let '(a2, rs) := run_frames a1 calls' in
      (a2, r :: rs)
  end.

Lemma process_frame_not_tracking :
  forall a image frame_name sa si,
    is_tracking (tracker a) = false ->
    snd (process_frame a image frame_name sa si) = Returns []
    /\ tracker (fst (process_frame a image frame_name sa si)) = tracker a.
Proof.
  intros a image frame_name sa si H. unfold process_frame.
  destruct (is_initialized a); cbn [negb].
  - rewrite (update_not_tracking _ _ _ H).
    destruct (sa && truthy frame_name)%bool.
    + rewrite save_frame_annotation_empty. split; reflexivity.
    + split; reflexivity.
  - split; reflexivity.
Qed.

Lemma run_frames_not_tracking :
  forall calls a,
    is_tracking (tracker a) = false ->
    Forall (fun r => r = Returns []) (snd (run_frames a calls))
    /\ tracker (fst (run_frames a calls)) = tracker a.
Proof.
  induction calls as [|c calls IH]; intros a H.
  - split; [constructor | reflexivity].
  - cbn [run_frames].
    destruct (process_frame_not_tracking a (fc_image c) (fc_frame_name c)
                (fc_save_annotation c) (fc_save_image c) H) as [Hr Ht].
    destruct (process_frame a (fc_image c) (fc_frame_name c)
                (fc_save_annotation c) (fc_save_image c)) as [a1 r].
    cbn [fst snd] in Hr, Ht.
    assert (H1 : is_tracking (tracker a1) = false) by now rewrite Ht.
    destruct (IH a1 H1) as [IHr IHt].
    destruct (run_frames a1 calls) as [a2 rs]. cbn [fst snd] in *.
    split; [constructor; assumption | congruence].
Qed.

Lemma process_frame_miss_terminates :
  forall a image frame_name sa si t,
    is_initialized a = true ->
    is_tracking (tracker a) = true ->
    target_track (tracker a) = Some t ->
    matched (tracker a) t (detector a image) = None ->
    (disappeared t + 1 > max_disappeared (tracker a))%Z ->
    snd (process_frame a image frame_name sa si) = Returns []
    /\ is_tracking (tracker (fst (process_frame a image frame_name sa si)))
       = false.
Proof.
  intros a image frame_name sa si t Hinit Htr Ht Hm Hd.
  unfold process_frame. rewrite Hinit. cbn [negb].
  rewrite (update_miss _ _ (frame_count a) _ Htr Ht Hm).
  apply Z.gtb_gt in Hd. rewrite Hd.
  destruct (sa && truthy frame_name)%bool.
  - rewrite save_frame_annotation_empty. split; reflexivity.
  - split; reflexivity.
Qed.

(** C3.  On the frame on which a miss takes [disappeared] above
    [max_disappeared], [process_frame] returns the empty list and
    [is_tracking] becomes false.  From then on, over every sequence of
    further frames, every [process_frame] call returns the empty list,
    [update] returns the empty list and changes nothing, and [is_tracking]
    stays false; [reset_tracker] followed by a fresh seed sets it again. *)
Theorem termination_is_permanent :
  forall (a : VideoAutoAnnotator) (image : Image)
         (frame_name : option string) (save_annotation save_image : bool)
         (t : Track),
    is_initialized a = true ->
    is_tracking (tracker a) = true ->
    target_track (tracker a) = Some t ->
    matched (tracker a) t (detector a image) = None ->
    (disappeared t + 1 > max_disappeared (tracker a))%Z ->
    let a1 :=
      fst (process_frame a image frame_name save_annotation save_image) in
    snd (process_frame a image frame_name save_annotation save_image)
    = Returns []
    /\ is_tracking (tracker a1) = false
    /\ forall calls : list FrameCall,
         let a2 := fst (run_frames a1 calls) in
         Forall (fun r => r = Returns []) (snd (run_frames a1 calls))
         /\ is_tracking (tracker a2) = false
         /\ (forall detections frame_id,
               update (tracker a2) detections frame_id
               = (tracker a2, Returns []))
         /\ (forall image' seed others,
               is_tracking
                 (tracker
                    (fst (initialize_from_manual_annotation
                            (reset_tracker a2) image' (seed :: others))))
               = true).
Proof.
  intros a image frame_name sa si t Hinit Htr Ht Hm Hd a1.
  destruct (process_frame_miss_terminates a image frame_name sa si t
              Hinit Htr Ht Hm Hd) as [Hr Hdead].
  fold a1 in Hdead.
  split; [exact Hr|]. split; [exact Hdead|].
  intros calls a2.
  destruct (run_frames_not_tracking calls a1 Hdead) as [Hrs Hsame].
  fold a2 in Hsame.
  assert (Hdead2 : is_tracking (tracker a2) = false) by now rewrite Hsame.
  split; [exact Hrs|]. split; [exact Hdead2|]. split.
  - intros detections frame_id. now apply update_not_tracking.
  - reflexivity.
Qed.

Definition default_annotator : VideoAutoAnnotator :=
  new_annotator no_detections "out" 0.5 0.2 30.

Definition silent_call : FrameCall :=
  {| fc_image := blank_image; fc_frame_name := None;
     fc_save_annotation := false; fc_save_image := false |}.

(** Seeded on a cup, then thirty frames without a detection: the track is
    lost with [disappeared = 30 = max_disappeared]. *)
Definition lost_thirty : VideoAutoAnnotator :=
  fst (run_frames
         (fst (initialize_from_manual_annotation default_annotator
                 blank_image [cup_seed]))
         (repeat silent_call 30)).

Definition lost_thirty_track : Track :=
  {| box := manual_bbox cup_seed;
     class_id := 41;
     class_name := "cup";
     disappeared := 30;
     confidence := 1.0;
     last_frame := 0;
     state := lost |}.

Lemma termination_is_permanent_witness :
  snd (process_frame lost_thirty blank_image None false false) = Returns []
  /\ is_tracking
       (tracker (fst (process_frame lost_thirty blank_image None false
                        false)))
     = false.
Proof.
  destruct (termination_is_permanent lost_thirty blank_image None false false
              lost_thirty_track) as [H1 [H2 _]];
    try (vm_compute; reflexivity).
  split; assumption.
Defined.

(** ** IoU *)

Lemma Qgeb_false x y : Qgeb x y = false <-> x < y.
Proof.
  unfold Qgeb, Qleb. split; intro H.
  - apply Qnot_le_lt. intro L. apply Qle_bool_iff in L. congruence.
  - destruct (Qle_bool y x) eqn:E; trivial.
    apply Qle_bool_iff in E. apply Qle_not_lt in E. contradiction.
Qed.

Lemma calculate_iou_nonneg :
  forall box1 box2, 0 <= calculate_iou box1 box2.
Proof.
  intros [[[a1 b1] c1] d1] [[[a2 b2] c2] d2]. unfold calculate_iou.
  set (x1 := py_max a1 a2). set (y1 := py_max b1 b2).
  set (x2 := py_min c1 c2). set (y2 := py_min d1 d2).
  destruct (Qgeb x1 x2 || Qgeb y1 y2)%bool eqn:G; [apply Qle_refl|].
  apply orb_false_iff in G as [Gx Gy].
  apply Qgeb_false in Gx, Gy.
  destruct (Qeq_bool _ 0); [apply Qle_refl|].
  assert (Hx1 : a1 <= x1) by apply Q.le_max_l.
  assert (Hx1' : a2 <= x1) by apply Q.le_max_r.
  assert (Hy1 : b1 <= y1) by apply Q.le_max_l.
  assert (Hy1' : b2 <= y1) by apply Q.le_max_r.
  assert (Hx2 : x2 <= c1) by apply Q.le_min_l.
  assert (Hx2' : x2 <= c2) by apply Q.le_min_r.
  assert (Hy2 : y2 <= d1) by apply Q.le_min_l.
  assert (Hy2' : y2 <= d2) by apply Q.le_min_r.
  clearbody x1 y1 x2 y2.
  assert (Hi : 0 < (x2 - x1) * (y2 - y1)) by nra.
  assert (H1 : (x2 - x1) * (y2 - y1) <= (c1 - a1) * (d1 - b1)) by nra.
  assert (H2 : (x2 - x1) * (y2 - y1) <= (c2 - a2) * (d2 - b2)) by nra.
  apply Qle_shift_div_l; lra.
Qed.

(** ** The matching rounds *)

Section Tier1.

Variable self : SingleObjectTracker.
Variable target : Z.
Variable ref : BBox.

Let iou (d : DetectionBox) : Q := calculate_iou ref (det_box d).
Let same (d : DetectionBox) : Prop := det_class_id d = target.
Let thr : Q := high_iou_threshold self.

Lemma tier1_snoc :
  forall l d,
    tier1 self target ref (l ++ [d])
    = high_step self target ref (tier1 self target ref l) d.
Proof. intros. unfold tier1. now rewrite fold_left_app. Qed.

(** What one pass of the first loop over [l] establishes. *)
Record tier1_inv (l : list DetectionBox) (b : Best) : Prop := {
  inv_none : best_match b = None -> b = no_best;
  inv_nonneg : 0 <= best_iou b;
  inv_in : forall m, best_match b = Some m ->
             In m l /\ best_iou b = iou m
             /\ (match_source b = high_conf_same_class
                 \/ match_source b = high_conf_diff_class);
  inv_dominates : forall d, In d l -> same d -> thr < iou d ->
                    iou d <= best_iou b;
  inv_found : 0 <= thr ->
              forall d, In d l -> same d -> thr < iou d ->
                best_match b <> None;
  inv_same : forall m, best_match b = Some m -> same m ->
               thr < iou m
               /\ exists l1 l2,
                    l = l1 ++ m :: l2
                    /\ (forall d, In d l1 -> same d -> iou d < iou m)
                    /\ (forall d, In d l2 -> same d -> iou d <= iou m)
}.

Lemma tier1_inv_holds : forall l, tier1_inv l (tier1 self target ref l).
Proof.
  induction l as [|x l IH] using rev_ind.
  - constructor; cbn; easy.
  - rewrite tier1_snoc. destruct IH as [Inone Inn Iin Idom Ifound Isame].
    set (b := tier1 self target ref l) in *. clearbody b.
    unfold high_step. fold (iou x). fold thr.
    destruct (Z.eqb_spec (det_class_id x) target) as [Hc|Hc].
    + (* same class *)
      destruct (Qgtb (iou x) (best_iou b) && Qgtb (iou x) thr)%bool eqn:G.
      * apply andb_true_iff in G as [G1 G2].
        apply Qgtb_gt in G1, G2.
        constructor; cbn [best_match best_iou match_source].
        -- discriminate.
        -- lra.
        -- intros m E; inversion E; subst m.
           split; [apply in_or_app; right; now left|]. split; auto.
        -- intros d Hd Hs Ht. apply in_app_or in Hd as [Hd|[<-|[]]].
           ++ specialize (Idom d Hd Hs Ht). lra.
           ++ apply Qle_refl.
        -- intros; discriminate.
        -- intros m E Hs; inversion E; subst m. split; [exact G2|].
           exists l, []. split; [reflexivity|]. split; [|intros d []].
           intros d Hd Hsd.
           destruct (Qlt_le_dec thr (iou d)) as [Ht|Ht].
           ++ specialize (Idom d Hd Hsd Ht). lra.
           ++ lra.
      * assert (Hx : thr < iou x -> iou x <= best_iou b).
        { intros Ht. apply andb_false_iff in G as [G|G];
            apply Qgtb_le in G; lra. }
        constructor.
        -- exact Inone.
        -- exact Inn.
        -- intros m E. destruct (Iin m E) as [Hin Hrest].
           split; [apply in_or_app; now left | exact Hrest].
        -- intros d Hd Hs Ht. apply in_app_or in Hd as [Hd|[<-|[]]]; auto.
        -- intros Hthr d Hd Hs Ht.
           apply in_app_or in Hd as [Hd|[<-|[]]]; [now eauto|].
           intros E. rewrite (Inone E) in Hx. cbn in Hx.
           specialize (Hx Ht). lra.
        -- intros m E Hs. destruct (Isame m E Hs) as [Ht [l1 [l2 [-> [H1 H2]]]]].
           split; [exact Ht|]. exists l1, (l2 ++ [x]).
           split; [now rewrite <- app_assoc|]. split; [exact H1|].
           intros d Hd Hsd. apply in_app_or in Hd as [Hd|[<-|[]]]; auto.
           destruct (Iin m E) as [_ [Hbi _]].
           destruct (Qlt_le_dec thr (iou x)) as [Hlt|Hle].
           ++ specialize (Hx Hlt). rewrite Hbi in Hx. exact Hx.
           ++ lra.
    + (* other class *)
      assert (Hns : forall d, same d -> d <> x).
      { intros d Hs ->. now apply Hc. }
      destruct (is_none (best_match b) && Qgtb (iou x) (thr * 1.2))%bool
        eqn:G.
      * apply andb_true_iff in G as [G1 G2].
        destruct (best_match b) eqn:Eb; [discriminate|].
        rewrite (Inone eq_refl) in *. clear G1.
        constructor; cbn [best_match best_iou match_source].
        -- discriminate.
        -- apply calculate_iou_nonneg.
        -- intros m E; inversion E; subst m.
           split; [apply in_or_app; right; now left|]. split; auto.
        -- intros d Hd Hs Ht. apply in_app_or in Hd as [Hd|[<-|[]]].
           ++ specialize (Idom d Hd Hs Ht). cbn in Idom.
              pose proof (calculate_iou_nonneg ref (det_box x)).
              fold (iou x) in H. lra.
           ++ now destruct (Hns _ Hs).
        -- intros; discriminate.
        -- intros m E Hs; inversion E; subst m. now destruct (Hns x Hs).
      * constructor.
        -- exact Inone.
        -- exact Inn.
        -- intros m E. destruct (Iin m E) as [Hin Hrest].
           split; [apply in_or_app; now left | exact Hrest].
        -- intros d Hd Hs Ht. apply in_app_or in Hd as [Hd|[<-|[]]]; auto.
           now destruct (Hns _ Hs).
        -- intros Hthr d Hd Hs Ht.
           apply in_app_or in Hd as [Hd|[<-|[]]]; [now eauto|].
           now destruct (Hns _ Hs).
        -- intros m E Hs. destruct (Isame m E Hs) as [Ht [l1 [l2 [-> [H1 H2]]]]].
           split; [exact Ht|]. exists l1, (l2 ++ [x]).
           split; [now rewrite <- app_assoc|]. split; [exact H1|].
           intros d Hd Hsd. apply in_app_or in Hd as [Hd|[<-|[]]]; auto.
           now destruct (Hns _ Hsd).
Qed.

End Tier1.

(** What the first round does guarantee: when it accepts a detection of
    the target's class, that detection clears the bar and is the first of
    largest IoU among the high confidence detections of that class. *)
Lemma tier1_same_class_match_is_first_maximum :
  forall self target ref highs m,
    best_match (tier1 self target ref highs) = Some m ->
    det_class_id m = target ->
    high_iou_threshold self < calculate_iou ref (det_box m)
    /\ exists l1 l2,
         highs = l1 ++ m :: l2
         /\ (forall d, In d l1 -> det_class_id d = target ->
                calculate_iou ref (det_box d) < calculate_iou ref (det_box m))
         /\ (forall d, In d l2 -> det_class_id d = target ->
                calculate_iou ref (det_box d)
                <= calculate_iou ref (det_box m)).
Proof.
  intros self target ref highs m Hm Hc.
  exact (inv_same _ _ _ _ _ (tier1_inv_holds self target ref highs) m Hm Hc).
Qed.

Lemma tier2_keeps_match :
  forall self target ref b lows,
    best_match b <> None -> tier2 self target ref b lows = b.
Proof.
  intros self target ref b lows H. unfold tier2.
  destruct (best_match b); [reflexivity | contradiction].
Qed.

Lemma tier3_keeps_match :
  forall self target ref t b highs lows,
    best_match b <> None -> tier3 self target ref t b highs lows = b.
Proof.
  intros self target ref t b highs lows H. unfold tier3.
  destruct (best_match b); [reflexivity | contradiction].
Qed.

Lemma find_match_tier1 :
  forall self t ref detections,
    best_match (tier1 self (class_id t) ref (high_conf self detections))
    <> None ->
    find_match self t ref detections
    = tier1 self (class_id t) ref (high_conf self detections).
Proof.
  intros self t ref detections H. unfold find_match.
  rewrite (tier2_keeps_match _ _ _ _ _ H).
  now rewrite (tier3_keeps_match _ _ _ _ _ _ _ H).
Qed.

(** Tier precedence, as far as the code has it.  Let the detection list
    hold a high confidence detection [h] of the target's class whose IoU
    with the predicted box exceeds [high_iou_threshold], and a low
    confidence detection [l] of that class with a higher IoU.  Then, for a
    non-negative [high_iou_threshold], the match is the one the first round
    made: a high confidence detection, never [l], whose IoU is at least
    that of [h], and [h] itself when [h] is the only high confidence
    detection.  And the second round changes the result of the first only
    when the first matched nothing.  Nothing is said of the class of the
    match: it need not be the target's, see
    [other_class_beats_confident_same_class] below. *)
Lemma high_confidence_tier_wins :
  forall (self : SingleObjectTracker) (t : Track) (ref : BBox)
         (detections : list DetectionBox) (h l : DetectionBox),
    0 <= high_iou_threshold self ->
    In h detections ->
    high_conf_threshold self <= det_confidence h ->
    det_class_id h = class_id t ->
    high_iou_threshold self < calculate_iou ref (det_box h) ->
    In l detections ->
    low_conf_threshold self <= det_confidence l ->
    det_confidence l < high_conf_threshold self ->
    det_class_id l = class_id t ->
    calculate_iou ref (det_box h) < calculate_iou ref (det_box l) ->
    (exists m,
       best_match (find_match self t ref detections) = Some m
       /\ find_match self t ref detections
          = tier1 self (class_id t) ref (high_conf self detections)
       /\ In m (high_conf self detections)
       /\ high_conf_threshold self <= det_confidence m
       /\ m <> l
       /\ calculate_iou ref (det_box h) <= calculate_iou ref (det_box m)
       /\ ((forall d, In d (high_conf self detections) -> d = h) -> m = h))
    /\ (forall b lows,
          tier2 self (class_id t) ref b lows <> b -> best_match b = None).
Proof.
  intros self t ref detections h l Hthr Hh Hhc Hhs Hhi Hl Hlc Hlc' Hls Hlt.
  split.
  - assert (Hh' : In h (high_conf self detections)).
    { apply filter_In. split; [exact Hh | now apply Qgeb_ge]. }
    pose proof (tier1_inv_holds self (class_id t) ref
                  (high_conf self detections)) as I.
    pose proof (inv_found _ _ _ _ _ I Hthr h Hh' Hhs Hhi) as Hsome.
    rewrite (find_match_tier1 _ _ _ _ Hsome).
    destruct (best_match (tier1 self (class_id t) ref
                            (high_conf self detections))) as [m|] eqn:E;
      [|contradiction].
    destruct (inv_in _ _ _ _ _ I m E) as [Hm [Hbi _]].
    assert (Hmc : high_conf_threshold self <= det_confidence m).
    { apply filter_In in Hm as [_ Hm]. now apply Qgeb_ge in Hm. }
    exists m. repeat split; auto.
    + intros ->. lra.
    + rewrite <- Hbi. apply (inv_dominates _ _ _ _ _ I h Hh' Hhs Hhi).
  - intros b lows Hne. destruct (best_match b) eqn:E; [|reflexivity].
    exfalso. apply Hne. apply tier2_keeps_match. rewrite E. discriminate.
Qed.

Ltac qdec :=
  first [ apply Qltb_lt | apply Qleb_le ]; vm_compute; reflexivity.

Definition cup_box : BBox := (100, 100, 200, 200).
Definition cup_track : Track := seeded_track cup_seed 0.

(** A confident cup over the upper half of the predicted box (IoU 0.5)
    and a weak cup exactly on it (IoU 1). *)
Definition confident_cup : DetectionBox :=
  {| det_x1 := 100; det_y1 := 100; det_x2 := 200; det_y2 := 150;
     det_confidence := 0.6; det_class_id := 41; det_class_name := "cup" |}.

Definition weak_cup : DetectionBox :=
  {| det_x1 := 100; det_y1 := 100; det_x2 := 200; det_y2 := 200;
     det_confidence := 0.3; det_class_id := 41; det_class_name := "cup" |}.

Lemma high_confidence_tier_wins_witness :
  (exists m,
     best_match (find_match seeded_tracker cup_track cup_box
                            [weak_cup; confident_cup]) = Some m
     /\ find_match seeded_tracker cup_track cup_box [weak_cup; confident_cup]
        = tier1 seeded_tracker (class_id cup_track) cup_box
                (high_conf seeded_tracker [weak_cup; confident_cup])
     /\ In m (high_conf seeded_tracker [weak_cup; confident_cup])
     /\ high_conf_threshold seeded_tracker <= det_confidence m
     /\ m <> weak_cup
     /\ calculate_iou cup_box (det_box confident_cup)
        <= calculate_iou cup_box (det_box m)
     /\ ((forall d,
            In d (high_conf seeded_tracker [weak_cup; confident_cup]) ->
            d = confident_cup) ->
         m = confident_cup))
  /\ (forall b lows,
        tier2 seeded_tracker (class_id cup_track) cup_box b lows <> b ->
        best_match b = None).
Proof.
  apply (high_confidence_tier_wins seeded_tracker cup_track cup_box
           [weak_cup; confident_cup] confident_cup weak_cup).
  - qdec.
  - simpl; tauto.
  - qdec.
  - reflexivity.
  - qdec.
  - simpl; tauto.
  - qdec.
  - qdec.
  - reflexivity.
  - qdec.
Defined.

(** A confident bowl exactly on the predicted box (IoU 1), reported ahead
    of a confident cup over its upper four fifths (IoU 0.8). *)
Definition confident_bowl : DetectionBox :=
  {| det_x1 := 100; det_y1 := 100; det_x2 := 200; det_y2 := 200;
     det_confidence := 0.9; det_class_id := 45; det_class_name := "bowl" |}.

Definition clear_cup : DetectionBox :=
  {| det_x1 := 100; det_y1 := 100; det_x2 := 200; det_y2 := 180;
     det_confidence := 0.8; det_class_id := 41; det_class_name := "cup" |}.

(** A second bowl, over the upper half only (IoU 0.5). *)
Definition half_bowl : DetectionBox :=
  {| det_x1 := 100; det_y1 := 100; det_x2 := 200; det_y2 := 150;
     det_confidence := 0.9; det_class_id := 45; det_class_name := "bowl" |}.

(** C1 on the code.  The tracker follows a cup (class 41) predicted at
    [cup_box], with the default [high_iou_threshold = 0.3].  The detector
    reports a confident bowl and then a confident cup whose IoU 0.8 clears
    the bar: the first round accepts the bowl, a detection of another
    class, and [update] reports the bowl's confidence.  With two bowls and
    no cup, it accepts the first bowl past [1.2 * 0.3], not the one of
    larger IoU. *)
Theorem tier1_accepts_other_class_first :
  let ref := reference_box seeded_tracker cup_track in
  BBox_eq ref cup_box
  /\ high_conf seeded_tracker [confident_bowl; clear_cup]
     = [confident_bowl; clear_cup]
  /\ det_class_id clear_cup = class_id cup_track
  /\ Qgtb (calculate_iou ref (det_box clear_cup))
          (high_iou_threshold seeded_tracker) = true
  /\ tier1 seeded_tracker (class_id cup_track) ref
           [confident_bowl; clear_cup]
     = {| best_match := Some confident_bowl;
          best_iou := calculate_iou ref (det_box confident_bowl);
          match_source := high_conf_diff_class |}
  /\ matched seeded_tracker cup_track [confident_bowl; clear_cup]
     = Some confident_bowl
  /\ option_map (map tb_confidence)
       (match snd (update seeded_tracker [confident_bowl; clear_cup] 1) with
        | Returns l => Some l
        | Raises _ => None
        end)
     = Some [det_confidence confident_bowl]
  /\ best_match (tier1 seeded_tracker (class_id cup_track) ref
                       [half_bowl; confident_bowl])
     = Some half_bowl
  /\ Qltb (calculate_iou ref (det_box half_bowl))
          (calculate_iou ref (det_box confident_bowl)) = true.
Proof.
  cbv zeta. repeat split; vm_compute; reflexivity.
Qed.

(** C5 on the code.  Same tracker and predicted box.  The list holds a
    confident cup whose IoU 0.5 clears [high_iou_threshold = 0.3] and a
    weak cup of higher IoU 1: the premises of the tier precedence rule.
    It also holds, ahead of them, a confident bowl of IoU 1.  The first
    round accepts the bowl and then refuses the confident cup (its IoU is
    not above [best_iou]): the match is not the high confidence detection
    of the target's class but one of another class, and [update] reports
    the bowl's confidence.  The rule itself is not at fault: without the
    bowl, or with the bowl reported after the confident cup, the confident
    cup is matched, not the weak one. *)
Theorem other_class_beats_confident_same_class :
  let ref := reference_box seeded_tracker cup_track in
  let detections := [confident_bowl; confident_cup; weak_cup] in
  BBox_eq ref cup_box
  /\ high_conf seeded_tracker detections = [confident_bowl; confident_cup]
  /\ low_conf seeded_tracker detections = [weak_cup]
  /\ det_class_id confident_cup = class_id cup_track
  /\ det_class_id weak_cup = class_id cup_track
  /\ Qgtb (calculate_iou ref (det_box confident_cup))
          (high_iou_threshold seeded_tracker) = true
  /\ Qltb (calculate_iou ref (det_box confident_cup))
          (calculate_iou ref (det_box weak_cup)) = true
  /\ find_match seeded_tracker cup_track ref detections
     = {| best_match := Some confident_bowl;
          best_iou := calculate_iou ref (det_box confident_bowl);
          match_source := high_conf_diff_class |}
  /\ matched seeded_tracker cup_track detections = Some confident_bowl
  /\ confident_bowl <> confident_cup
  /\ det_class_id confident_bowl <> class_id cup_track
  /\ option_map (map tb_confidence)
       (match snd (update seeded_tracker detections 1) with
        | Returns l => Some l
        | Raises _ => None
        end)
     = Some [det_confidence confident_bowl]
  /\ matched seeded_tracker cup_track [confident_cup; weak_cup]
     = Some confident_cup
  /\ matched seeded_tracker cup_track
       [confident_cup; confident_bowl; weak_cup]
     = Some confident_cup.
Proof.
  cbv zeta. repeat split; try (vm_compute; reflexivity); discriminate.
Qed.

(** ** The covariance of the Kalman filter *)

Module Covariance.
Import Mat Kalman.

(** The 8x8 arrays of the filter couple each position component with its
    own velocity only: entry [(i, i)], [(i, i+4)], [(i+4, i)] and
    [(i+4, i+4)] for [i < 4], zero elsewhere.  [block] is one such 2x2
    coupling, [gblock] the array of four of them. *)
Definition block : Type := (Q * Q * Q * Q)%type.

Definition gblock (k0 k1 k2 k3 : block) : matrix :=
  let '(p0, q0, r0, s0) := k0 in
  let '(p1, q1, r1, s1) := k1 in
  let '(p2, q2, r2, s2) := k2 in
  let '(p3, q3, r3, s3) := k3 in
  [ [p0; 0; 0; 0; q0; 0; 0; 0];
    [0; p1; 0; 0; 0; q1; 0; 0];
    [0; 0; p2; 0; 0; 0; q2; 0];
    [0; 0; 0; p3; 0; 0; 0; q3];
    [r0; 0; 0; 0; s0; 0; 0; 0];
    [0; r1; 0; 0; 0; s1; 0; 0];
    [0; 0; r2; 0; 0; 0; s2; 0];
    [0; 0; 0; r3; 0; 0; 0; s3] ].

(** 4x8, 8x4 and 4x4 arrays of the same kind. *)
Definition hblock (k0 k1 k2 k3 : Q * Q) : matrix :=
  let '(p0, q0) := k0 in
  let '(p1, q1) := k1 in
  let '(p2, q2) := k2 in
  let '(p3, q3) := k3 in
  [ [p0; 0; 0; 0; q0; 0; 0; 0];
    [0; p1; 0; 0; 0; q1; 0; 0];
    [0; 0; p2; 0; 0; 0; q2; 0];
    [0; 0; 0; p3; 0; 0; 0; q3] ].

Definition vblock (k0 k1 k2 k3 : Q * Q) : matrix :=
  let '(p0, r0) := k0 in
  let '(p1, r1) := k1 in
  let '(p2, r2) := k2 in
  let '(p3, r3) := k3 in
  [ [p0; 0; 0; 0];
    [0; p1; 0; 0];
    [0; 0; p2; 0];
    [0; 0; 0; p3];
    [r0; 0; 0; 0];
    [0; r1; 0; 0];
    [0; 0; r2; 0];
    [0; 0; 0; r3] ].

Definition diag4 (s0 s1 s2 s3 : Q) : matrix :=
  [ [s0; 0; 0; 0];
    [0; s1; 0; 0];
    [0; 0; s2; 0];
    [0; 0; 0; s3] ].

Definition bmul (k k' : block) : block :=
  let '(p, q, r, s) := k in
  let '(p', q', r', s') := k' in
  (Qred (p * p' + q * r'), Qred (p * q' + q * s'),
   Qred (r * p' + s * r'), Qred (r * q' + s * s')).

Definition bzip (f : Q -> Q -> Q) (k k' : block) : block :=
  let '(p, q, r, s) := k in
  let '(p', q', r', s') := k' in
  (Qred (f p p'), Qred (f q q'), Qred (f r r'), Qred (f s s')).

Lemma cons_eq {A} (a a' : A) (l l' : list A) :
  a = a' -> l = l' -> a :: l = a' :: l'.
Proof. now intros -> ->. Qed.

Lemma Qred_zero (x : Q) : x == 0 -> Qred x = 0.
Proof. intros H. change 0 with (Qred 0). now apply Qred_complete. Qed.

Ltac mat_eq :=
  unfold diag4;
  repeat match goal with
         | |- (_ :: _) = (_ :: _) => apply cons_eq
         | |- [] = [] => reflexivity
         | |- Qred _ = Qred _ => apply Qred_complete
         | |- Qred _ = 0 => apply Qred_zero
         end.

Ltac blocks :=
  repeat match goal with
         | k : block |- _ => destruct k as [[[? ?] ?] ?]
         | k : (Q * Q)%type |- _ => destruct k as [? ?]
         end.

Lemma mmul_gblock k0 k1 k2 k3 k0' k1' k2' k3' :
  mmul (gblock k0 k1 k2 k3) (gblock k0' k1' k2' k3')
  = gblock (bmul k0 k0') (bmul k1 k1') (bmul k2 k2') (bmul k3 k3').
Proof. blocks. cbn. mat_eq; ring. Qed.

Lemma madd_gblock k0 k1 k2 k3 k0' k1' k2' k3' :
  madd (gblock k0 k1 k2 k3) (gblock k0' k1' k2' k3')
  = gblock (bzip Qplus k0 k0') (bzip Qplus k1 k1')
           (bzip Qplus k2 k2') (bzip Qplus k3 k3').
Proof. blocks. cbn. mat_eq; ring. Qed.

Lemma msub_gblock k0 k1 k2 k3 k0' k1' k2' k3' :
  msub (gblock k0 k1 k2 k3) (gblock k0' k1' k2' k3')
  = gblock (bzip Qminus k0 k0') (bzip Qminus k1 k1')
           (bzip Qminus k2 k2') (bzip Qminus k3 k3').
Proof. blocks. cbn. mat_eq; ring. Qed.

Definition F_block : block := (1, 1, 0, 1).
Definition Ft_block : block := (1, 0, 1, 1).
Definition Qn_block : block := (1 # 10, 0, 0, 1 # 1000).

Lemma F_gblock : F = gblock F_block F_block F_block F_block.
Proof. reflexivity. Qed.

Lemma Ft_gblock : transpose F = gblock Ft_block Ft_block Ft_block Ft_block.
Proof. reflexivity. Qed.

Lemma Qn_gblock : Qn = gblock Qn_block Qn_block Qn_block Qn_block.
Proof. vm_compute. reflexivity. Qed.

(** The covariance step of [predict]. *)
Definition predict_P (P : matrix) : matrix :=
  madd (mmul (mmul F P) (transpose F)) Qn.

Definition predict_block (k : block) : block :=
  bzip Qplus (bmul (bmul F_block k) Ft_block) Qn_block.

Lemma predict_P_gblock k0 k1 k2 k3 :
  predict_P (gblock k0 k1 k2 k3)
  = gblock (predict_block k0) (predict_block k1)
           (predict_block k2) (predict_block k3).
Proof.
  unfold predict_P. rewrite Ft_gblock, F_gblock, Qn_gblock.
  now rewrite !mmul_gblock, madd_gblock.
Qed.

(** The covariance step of [update]. *)
Lemma H_gblock k0 k1 k2 k3 :
  mmul H (gblock k0 k1 k2 k3)
  = hblock (Qred (fst (fst (fst k0))), Qred (snd (fst (fst k0))))
           (Qred (fst (fst (fst k1))), Qred (snd (fst (fst k1))))
           (Qred (fst (fst (fst k2))), Qred (snd (fst (fst k2))))
           (Qred (fst (fst (fst k3))), Qred (snd (fst (fst k3)))).
Proof. blocks. cbn. mat_eq; ring. Qed.

Lemma hblock_Ht k0 k1 k2 k3 :
  mmul (hblock k0 k1 k2 k3) (transpose H)
  = diag4 (Qred (fst k0)) (Qred (fst k1)) (Qred (fst k2)) (Qred (fst k3)).
Proof. blocks. cbn. mat_eq; ring. Qed.

Lemma diag4_R s0 s1 s2 s3 :
  madd (diag4 s0 s1 s2 s3) R
  = diag4 (Qred (s0 + 10)) (Qred (s1 + 10)) (Qred (s2 + 10)) (Qred (s3 + 10)).
Proof. cbn. mat_eq; rewrite ?Qred_correct; ring. Qed.

Lemma det_diag4 s0 s1 s2 s3 :
  det 4 (diag4 s0 s1 s2 s3) == s0 * s1 * s2 * s3.
Proof. cbn. ring. Qed.

Lemma inv_diag4 s0 s1 s2 s3 :
  ~ s0 == 0 -> ~ s1 == 0 -> ~ s2 == 0 -> ~ s3 == 0 ->
  inv (diag4 s0 s1 s2 s3)
  = Returns (diag4 (Qred (/ s0)) (Qred (/ s1)) (Qred (/ s2)) (Qred (/ s3))).
Proof.
  intros H0 H1 H2 H3. unfold inv.
  assert (Hd : ~ det 4 (diag4 s0 s1 s2 s3) == 0).
  { rewrite det_diag4. intro E.
    apply Qmult_integral in E as [E|E]; auto.
    apply Qmult_integral in E as [E|E]; auto.
    apply Qmult_integral in E as [E|E]; auto. }
  change (List.length (diag4 s0 s1 s2 s3)) with 4%nat.
  destruct (Qeq_bool (det 4 (diag4 s0 s1 s2 s3)) 0) eqn:E.
  { apply Qeq_bool_iff in E. contradiction. }
  clear E Hd. f_equal. cbn. mat_eq; field; auto.
Qed.

Lemma gblock_Ht k0 k1 k2 k3 :
  mmul (gblock k0 k1 k2 k3) (transpose H)
  = vblock (Qred (fst (fst (fst k0))), Qred (snd (fst k0)))
           (Qred (fst (fst (fst k1))), Qred (snd (fst k1)))
           (Qred (fst (fst (fst k2))), Qred (snd (fst k2)))
           (Qred (fst (fst (fst k3))), Qred (snd (fst k3))).
Proof. blocks. cbn. mat_eq; ring. Qed.

Lemma vblock_diag4 k0 k1 k2 k3 t0 t1 t2 t3 :
  mmul (vblock k0 k1 k2 k3) (diag4 t0 t1 t2 t3)
  = vblock (Qred (fst k0 * t0), Qred (snd k0 * t0))
           (Qred (fst k1 * t1), Qred (snd k1 * t1))
           (Qred (fst k2 * t2), Qred (snd k2 * t2))
           (Qred (fst k3 * t3), Qred (snd k3 * t3)).
Proof. blocks. cbn. mat_eq; ring. Qed.

Lemma vblock_H k0 k1 k2 k3 :
  mmul (vblock k0 k1 k2 k3) H
  = gblock (Qred (fst k0), 0, Qred (snd k0), 0)
           (Qred (fst k1), 0, Qred (snd k1), 0)
           (Qred (fst k2), 0, Qred (snd k2), 0)
           (Qred (fst k3), 0, Qred (snd k3), 0).
Proof. blocks. cbn. mat_eq; ring. Qed.

Definition update_block (k : block) : block :=
  let '(p, q, r, s) := k in
  let S := Qred (Qred (Qred p) + 10) in
  let Sinv := Qred (/ S) in
  let K1 := Qred (Qred p * Sinv) in
  let K2 := Qred (Qred r * Sinv) in
  bzip Qminus k (bmul (Qred K1, 0, Qred K2, 0) k).

Definition block_ok (k : block) : Prop :=
  let '(p, q, r, s) := k in
  0 < p /\ 0 <= q /\ q == r /\ 0 <= s /\ q * r <= p * s.

Lemma predict_block_ok k : block_ok k -> block_ok (predict_block k).
Proof.
  destruct k as [[[p q] r] s]. unfold block_ok, predict_block.
  cbn. rewrite !Qred_correct. intros (Hp & Hq & Hqr & Hs & Hd).
  repeat split; first [lra | nra].
Qed.

Lemma predict_block_grows k :
  block_ok k ->
  fst (fst (fst k)) <= fst (fst (fst (predict_block k))).
Proof.
  destruct k as [[[p q] r] s]. unfold block_ok, predict_block.
  cbn. rewrite !Qred_correct. intros (Hp & Hq & Hqr & Hs & Hd). lra.
Qed.

Lemma update_block_ok k : block_ok k -> block_ok (update_block k).
Proof.
  destruct k as [[[p q] r] s]. unfold block_ok, update_block.
  cbn. rewrite !Qred_correct. intros (Hp & Hq & Hqr & Hs & Hd).
  assert (Ht : 0 < / (p + 10)) by (apply Qinv_lt_0_compat; lra).
  assert (E : (p + 10) * / (p + 10) == 1) by (apply Qmult_inv_r; lra).
  set (t := / (p + 10)) in *. clearbody t.
  assert (Ep : p * t == 1 - 10 * t) by lra.
  assert (H1 : p - (p * t * p + 0 * r) == 10 * t * p) by nra.
  assert (H2 : q - (p * t * q + 0 * s) == 10 * t * q) by nra.
  assert (H3 : r - (r * t * p + 0 * r) == 10 * t * r) by nra.
  assert (H4 : s - (r * t * q + 0 * s) == t * (p * s - q * r + 10 * s)).
  { rewrite Hqr. ring_simplify. nra. }
  rewrite H1, H2, H3, H4.
  assert (0 <= t * q) by (apply Qmult_le_0_compat; lra).
  assert (0 < t * p) by (apply Qmult_lt_0_compat; lra).
  assert (0 <= t * (p * s - q * r + 10 * s))
    by (apply Qmult_le_0_compat; lra).
  repeat split; first [lra | nra].
Qed.

(** The covariance keeps the block shape, with each block positive
    semi-definite and of positive position variance. *)
Definition P_inv (kf : KalmanFilter) : Prop :=
  exists k0 k1 k2 k3,
    kf_P kf = gblock k0 k1 k2 k3
    /\ block_ok k0 /\ block_ok k1 /\ block_ok k2 /\ block_ok k3.

Lemma P_inv_new : P_inv new.
Proof.
  exists (1000, 0, 0, 1000), (1000, 0, 0, 1000),
         (1000, 0, 0, 1000), (1000, 0, 0, 1000).
  split; [vm_compute; reflexivity|].
  repeat split; first [lra | apply Qeq_refl].
Qed.

Lemma P_inv_initialize kf bbox : P_inv kf -> P_inv (initialize kf bbox).
Proof. destruct bbox as [[[x1 y1] x2] y2]. exact (fun H => H). Qed.

Lemma predict_P_eq kf :
  kf_P (fst (predict kf))
  = if is_initialized kf then predict_P (kf_P kf) else kf_P kf.
Proof. unfold predict. now destruct (is_initialized kf). Qed.

Lemma P_inv_predict kf : P_inv kf -> P_inv (fst (predict kf)).
Proof.
  intros (k0 & k1 & k2 & k3 & HP & H0 & H1 & H2 & H3).
  unfold P_inv. rewrite predict_P_eq.
  destruct (is_initialized kf).
  - exists (predict_block k0), (predict_block k1),
           (predict_block k2), (predict_block k3).
    rewrite HP, predict_P_gblock.
    repeat split; trivial; now apply predict_block_ok.
  - exists k0, k1, k2, k3. repeat split; trivial.
Qed.

Lemma gain_nonzero k : block_ok k ->
  ~ Qred (Qred (Qred (fst (fst (fst k)))) + 10) == 0.
Proof.
  destruct k as [[[p q] r] s]. cbn. rewrite !Qred_correct.
  intros (Hp & _). lra.
Qed.

(** On such a covariance [update] never meets a singular matrix. *)
Lemma update_gblock kf bbox k0 k1 k2 k3 :
  is_initialized kf = true ->
  kf_P kf = gblock k0 k1 k2 k3 ->
  block_ok k0 -> block_ok k1 -> block_ok k2 -> block_ok k3 ->
  snd (update kf bbox) = Returns tt
  /\ is_initialized (fst (update kf bbox)) = true
  /\ kf_P (fst (update kf bbox))
     = gblock (update_block k0) (update_block k1)
              (update_block k2) (update_block k3).
Proof.
  intros Hi HP H0 H1 H2 H3. destruct bbox as [[[x1 y1] x2] y2].
  unfold update. rewrite Hi, HP. cbn [negb].
  rewrite H_gblock, hblock_Ht, diag4_R. cbn [fst snd].
  rewrite inv_diag4 by (now apply gain_nonzero).
  cbn [fst snd kf_P is_initialized].
  rewrite gblock_Ht, vblock_diag4, vblock_H, mmul_gblock, msub_gblock.
  repeat split.
  destruct k0 as [[[p0 q0] r0] s0], k1 as [[[p1 q1] r1] s1],
           k2 as [[[p2 q2] r2] s2], k3 as [[[p3 q3] r3] s3].
  reflexivity.
Qed.

Lemma P_inv_update kf bbox :
  P_inv kf ->
  P_inv (fst (update kf bbox)) /\ snd (update kf bbox) = Returns tt.
Proof.
  intros (k0 & k1 & k2 & k3 & HP & H0 & H1 & H2 & H3).
  destruct (is_initialized kf) eqn:Hi.
  - destruct (update_gblock kf bbox k0 k1 k2 k3 Hi HP H0 H1 H2 H3)
      as (Hr & _ & HP').
    split; [|exact Hr].
    exists (update_block k0), (update_block k1),
           (update_block k2), (update_block k3).
    repeat split; trivial; now apply update_block_ok.
  - unfold update. rewrite Hi. cbn [negb fst snd].
    split; [|reflexivity].
    apply P_inv_initialize. exists k0, k1, k2, k3. repeat split; trivial.
Qed.

(** The filters the operations of the class can produce. *)
Inductive reachable : KalmanFilter -> Prop :=
| reach_new : reachable new
| reach_initialize kf bbox :
    reachable kf -> reachable (initialize kf bbox)
| reach_predict kf :
    reachable kf -> reachable (fst (predict kf))
| reach_update kf bbox :
    reachable kf -> reachable (fst (update kf bbox)).

Lemma reachable_P_inv kf : reachable kf -> P_inv kf.
Proof.
  induction 1.
  - apply P_inv_new.
  - now apply P_inv_initialize.
  - now apply P_inv_predict.
  - now apply P_inv_update.
Qed.

Lemma reachable_update_returns kf bbox :
  reachable kf -> snd (update kf bbox) = Returns tt.
Proof. intros H. now apply P_inv_update, reachable_P_inv. Qed.

(** [n] calls of [predict] in a row. *)
Fixpoint predict_n (n : nat) (kf : KalmanFilter) : KalmanFilter :=
  match n with
  | O => kf
  | S n' => fst (predict (predict_n n' kf))
  end.

Lemma reachable_predict_n n kf : reachable kf -> reachable (predict_n n kf).
Proof. induction n; cbn; intros; [assumption | now apply reach_predict, IHn]. Qed.

Lemma entry_gblock_diag k0 k1 k2 k3 i :
  (i < 4)%nat ->
  entry (gblock k0 k1 k2 k3) i i
  = fst (fst (fst (nth i [k0; k1; k2; k3] k0))).
Proof.
  intros Hi.
  destruct k0 as [[[p0 q0] r0] s0], k1 as [[[p1 q1] r1] s1],
           k2 as [[[p2 q2] r2] s2], k3 as [[[p3 q3] r3] s3].
  destruct i as [|[|[|[|i]]]]; try reflexivity. lia.
Qed.

Lemma predict_diag_step kf i :
  P_inv kf -> (i < 4)%nat ->
  entry (kf_P kf) i i <= entry (kf_P (fst (predict kf))) i i.
Proof.
  intros (k0 & k1 & k2 & k3 & HP & H0 & H1 & H2 & H3) Hi.
  rewrite predict_P_eq. destruct (is_initialized kf); [|apply Qle_refl].
  rewrite HP, predict_P_gblock, !entry_gblock_diag by exact Hi.
  destruct i as [|[|[|[|i]]]]; cbn [nth];
    try (now apply predict_block_grows). lia.
Qed.

End Covariance.
(** C8.  From every filter the operations of [KalmanFilter] can produce
    (construction, [initialize], [predict], [update], in any order and
    number), and for every [n]: the [n+1]-th of a run of consecutive
    [predict] calls leaves each of the four position-diagonal entries of
    [P] (indices 0 to 3) at least as large as the [n]-th left it. *)
Theorem predict_never_shrinks_position_variance :
  forall (kf : Kalman.KalmanFilter),
    Covariance.reachable kf ->
    forall (n i : nat),
      (i < 4)%nat ->
      Mat.entry (Kalman.kf_P (Covariance.predict_n n kf)) i i
      <= Mat.entry (Kalman.kf_P (Covariance.predict_n (S n) kf)) i i.
Proof.
  intros kf Hr n i Hi. cbn [Covariance.predict_n].
  apply Covariance.predict_diag_step; [|exact Hi].
  now apply Covariance.reachable_P_inv, Covariance.reachable_predict_n.
Qed.

(** A filter seeded on the cup box, stepped once and corrected once. *)
Definition corrected_filter : Kalman.KalmanFilter :=
  fst (Kalman.update
         (fst (Kalman.predict (Kalman.initialize Kalman.new cup_box)))
         (110, 100, 210, 200)).

Lemma predict_never_shrinks_position_variance_witness :
  Mat.entry (Kalman.kf_P (Covariance.predict_n 2 corrected_filter)) 0 0
  <= Mat.entry (Kalman.kf_P (Covariance.predict_n 3 corrected_filter)) 0 0.
Proof.
  apply (predict_never_shrinks_position_variance corrected_filter
           (Covariance.reach_update _ _
              (Covariance.reach_predict _
                 (Covariance.reach_initialize _ _ Covariance.reach_new)))
           2%nat 0%nat).
  lia.
Defined.

(** ** A matched frame *)

(** The filter of a reachable tracker is a reachable filter. *)
Lemma tracker_reachable_filter :
  forall self,
    tracker_reachable self -> Covariance.reachable (kalman_filter self).
Proof.
  induction 1 as [| self b f _ IH | self detections f _ IH | self _ _].
  - apply Covariance.reach_new.
  - now apply Covariance.reach_initialize.
  - unfold update.
    destruct (is_tracking self); [|exact IH].
    destruct (target_track self) as [t|]; [|exact IH].
    pose proof (Covariance.reach_predict _ IH) as Hp.
    destruct (Kalman.predict (kalman_filter self)) as [kf predicted].
    cbn [fst] in Hp.
    destruct (best_match _) as [m|].
    + pose proof (Covariance.reach_update _ (det_box m) Hp) as Hu.
      destruct (Kalman.update kf (det_box m)) as [kf' [[]|e]]; exact Hu.
    + destruct (Z.gtb _ _); exact Hp.
  - apply Covariance.reach_new.
Qed.

(** C10.  Take a tracker the operations of the class can produce.  On a
    frame on which a detection [m] is matched, in whichever round,
    [update] returns exactly one tracking box.  Its coordinates are
    what [get_current_bbox] reads from the filter after it was corrected
    with the box of [m]; its confidence is the confidence of [m]; and the
    track stores the box of [m] itself, with [disappeared] back at 0. *)
Theorem match_emits_smoothed_box :
  forall (self : SingleObjectTracker) (detections : list DetectionBox)
         (frame_id : Z) (t : Track) (m : DetectionBox),
    tracker_reachable self ->
    is_tracking self = true ->
    target_track self = Some t ->
    matched self t detections = Some m ->
    let self' := fst (update self detections frame_id) in
    exists tb smoothed t',
      snd (update self detections frame_id) = Returns [tb]
      /\ kalman_filter self'
         = fst (Kalman.update (fst (Kalman.predict (kalman_filter self)))
                              (det_box m))
      /\ Kalman.get_current_bbox (kalman_filter self') = Some smoothed
      /\ tb_box tb = smoothed
      /\ tb_confidence tb = det_confidence m
      /\ target_track self' = Some t'
      /\ box t' = det_box m
      /\ confidence t' = det_confidence m
      /\ disappeared t' = 0%Z
      /\ state t' = tracked
      /\ is_tracking self' = true.
Proof.
  intros self detections frame_id t m Hreach Htr Ht Hm self'.
  apply tracker_reachable_filter in Hreach.
  subst self'. unfold matched, reference_box in Hm. unfold update.
  rewrite Htr, Ht.
  pose proof (Covariance.reach_predict _ Hreach) as Hp.
  destruct (Kalman.predict (kalman_filter self)) as [kf predicted].
  cbn [fst snd] in *. rewrite Hm.
  pose proof (Covariance.reachable_update_returns kf (det_box m) Hp) as Hr.
  pose proof (update_initialized kf (det_box m)) as Hi.
  destruct (Kalman.update kf (det_box m)) as [kf' r].
  cbn [fst snd] in *. subst r.
  cbn [fst snd kalman_filter set_track target_track is_tracking].
  unfold Kalman.get_current_bbox. rewrite Hi. cbn [negb].
  eexists. exists (Kalman.bbox_of_state (Kalman.kf_x kf')). eexists.
  split; [reflexivity|]. split; [reflexivity|]. split; [reflexivity|].
  rewrite tb_box_box_tracking, tb_confidence_box_tracking.
  repeat split.
Qed.

(** A confident cup ten pixels to the right of the seeded one. *)
Definition shifted_cup : DetectionBox :=
  {| det_x1 := 110; det_y1 := 100; det_x2 := 210; det_y2 := 200;
     det_confidence := 0.9; det_class_id := 41; det_class_name := "cup" |}.

Lemma match_emits_smoothed_box_witness :
  let self' := fst (update seeded_tracker [shifted_cup] 1) in
  exists tb smoothed t',
    snd (update seeded_tracker [shifted_cup] 1) = Returns [tb]
    /\ kalman_filter self'
       = fst (Kalman.update
                (fst (Kalman.predict (kalman_filter seeded_tracker)))
                (det_box shifted_cup))
    /\ Kalman.get_current_bbox (kalman_filter self') = Some smoothed
    /\ tb_box tb = smoothed
    /\ tb_confidence tb = det_confidence shifted_cup
    /\ target_track self' = Some t'
    /\ box t' = det_box shifted_cup
    /\ confidence t' = det_confidence shifted_cup
    /\ disappeared t' = 0%Z
    /\ state t' = tracked
    /\ is_tracking self' = true.
Proof.
  apply (match_emits_smoothed_box seeded_tracker [shifted_cup] 1 cup_track
           shifted_cup).
  - apply reach_initialize_target, reach_new_tracker.
  - reflexivity.
  - reflexivity.
  - vm_compute. reflexivity.
Defined.

(** On that frame the returned box is the smoothed one, left of the
    detection it was matched with. *)
Lemma smoothed_box_is_not_the_detection :
  option_map (map (fun tb => Qred (tb_x1 tb)))
    (match snd (update seeded_tracker [shifted_cup] 1) with
     | Returns l => Some l
     | Raises _ => None
     end)
  = Some [2210110 # 20101]
  /\ 2210110 # 20101 < det_x1 shifted_cup.
Proof.
  split; [vm_compute; reflexivity | reflexivity].
Qed.

(** * Further properties of the code *)

(** ** [calculate_iou] *)

(** The overlap rectangle of two boxes and the two areas. *)
Definition overlap (box1 box2 : BBox) : BBox :=
  let '(a1, b1, c1, d1) := box1 in
  let '(a2, b2, c2, d2) := box2 in
  (py_max a1 a2, py_max b1 b2, py_min c1 c2, py_min d1 d2).

Definition area (b : BBox) : Q :=
  let '(x1, y1, x2, y2) := b in (x2 - x1) * (y2 - y1).

Definition overlapping (box1 box2 : BBox) : Prop :=
  let '(x1, y1, x2, y2) := overlap box1 box2 in x1 < x2 /\ y1 < y2.

Lemma overlap_area_bounds :
  forall box1 box2,
    overlapping box1 box2 ->
    0 < area (overlap box1 box2)
    /\ area (overlap box1 box2) <= area box1
    /\ area (overlap box1 box2) <= area box2.
Proof.
  intros [[[a1 b1] c1] d1] [[[a2 b2] c2] d2].
  unfold overlapping, overlap, area, py_max, py_min.
  pose proof (Q.le_max_l a1 a2). pose proof (Q.le_max_r a1 a2).
  pose proof (Q.le_max_l b1 b2). pose proof (Q.le_max_r b1 b2).
  pose proof (Q.le_min_l c1 c2). pose proof (Q.le_min_r c1 c2).
  pose proof (Q.le_min_l d1 d2). pose proof (Q.le_min_r d1 d2).
  set (x1 := Qmax a1 a2) in *. set (y1 := Qmax b1 b2) in *.
  set (x2 := Qmin c1 c2) in *. set (y2 := Qmin d1 d2) in *.
  clearbody x1 y1 x2 y2. intros [Hx Hy].
  repeat split; nra.
Qed.

(** The two branches of [calculate_iou]; the division-by-zero guard never
    fires on overlapping boxes. *)
Lemma calculate_iou_cases :
  forall box1 box2,
    (overlapping box1 box2
     /\ calculate_iou box1 box2
        == area (overlap box1 box2)
           / (area box1 + area box2 - area (overlap box1 box2)))
    \/ (~ overlapping box1 box2 /\ calculate_iou box1 box2 = 0).
Proof.
  intros box1 box2.
  pose proof (overlap_area_bounds box1 box2) as Hb.
  destruct box1 as [[[a1 b1] c1] d1], box2 as [[[a2 b2] c2] d2].
  unfold overlapping, overlap, area, calculate_iou in *.
  set (x1 := py_max a1 a2) in *. set (y1 := py_max b1 b2) in *.
  set (x2 := py_min c1 c2) in *. set (y2 := py_min d1 d2) in *.
  destruct (Qgeb x1 x2 || Qgeb y1 y2)%bool eqn:G.
  - right. split; [|reflexivity].
    apply orb_true_iff in G as [G|G]; apply Qgeb_ge in G; lra.
  - left. apply orb_false_iff in G as [Gx Gy].
    apply Qgeb_false in Gx, Gy. split; [split; assumption|].
    destruct (Hb (conj Gx Gy)) as (Hi & H1 & H2).
    destruct (Qeq_bool _ 0) eqn:E; [|reflexivity].
    apply Qeq_bool_iff in E. lra.
Qed.

(** X1.  The IoU of any two boxes, degenerate or not, lies in [0, 1]. *)
Theorem calculate_iou_range :
  forall box1 box2 : BBox,
    0 <= calculate_iou box1 box2 /\ calculate_iou box1 box2 <= 1.
Proof.
  intros box1 box2.
  destruct (calculate_iou_cases box1 box2) as [[Ho E]|[_ E]]; rewrite E;
    [|split; lra].
  destruct (overlap_area_bounds _ _ Ho) as (Hi & H1 & H2).
  split.
  - apply Qle_shift_div_l; lra.
  - apply Qle_shift_div_r; lra.
Qed.

Lemma overlap_sym_eq :
  forall box1 box2,
    BBox_eq (overlap box1 box2) (overlap box2 box1).
Proof.
  intros [[[a1 b1] c1] d1] [[[a2 b2] c2] d2].
  unfold overlap, BBox_eq, py_max, py_min.
  repeat split; first [apply Q.max_comm | apply Q.min_comm].
Qed.

(** X2.  IoU does not depend on the order of its two arguments. *)
Theorem calculate_iou_sym :
  forall box1 box2 : BBox,
    calculate_iou box1 box2 == calculate_iou box2 box1.
Proof.
  intros box1 box2.
  pose proof (overlap_sym_eq box1 box2) as Hs.
  assert (Hiff : overlapping box1 box2 <-> overlapping box2 box1).
  { unfold overlapping.
    destruct (overlap box1 box2) as [[[x1 y1] x2] y2],
             (overlap box2 box1) as [[[x1' y1'] x2'] y2'].
    destruct Hs as (E1 & E2 & E3 & E4). rewrite E1, E2, E3, E4. tauto. }
  assert (Ha : area (overlap box1 box2) == area (overlap box2 box1)).
  { unfold area.
    destruct (overlap box1 box2) as [[[x1 y1] x2] y2],
             (overlap box2 box1) as [[[x1' y1'] x2'] y2'].
    destruct Hs as (E1 & E2 & E3 & E4). now rewrite E1, E2, E3, E4. }
  destruct (calculate_iou_cases box1 box2) as [[Ho E]|[Ho E]];
    destruct (calculate_iou_cases box2 box1) as [[Ho' E']|[Ho' E']];
    try tauto.
  - rewrite E, E', Ha.
    apply Qdiv_comp; [reflexivity | ring].
  - rewrite E, E'. reflexivity.
Qed.

Definition box_width (b : BBox) : Q := let '(x1, _, x2, _) := b in x2 - x1.
Definition box_height (b : BBox) : Q := let '(_, y1, _, y2) := b in y2 - y1.

(** X3.  A box of positive width and height has IoU 1 with itself. *)
Theorem calculate_iou_self :
  forall b : BBox,
    0 < box_width b -> 0 < box_height b ->
    calculate_iou b b == 1.
Proof.
  intros [[[x1 y1] x2] y2]. unfold box_width, box_height. intros Hw Hh.
  destruct (calculate_iou_cases (x1, y1, x2, y2) (x1, y1, x2, y2))
    as [[Ho E]|[Ho E]].
  - rewrite E. unfold overlap, area, py_max, py_min.
    rewrite !Q.max_id, !Q.min_id. field. nra.
  - exfalso. apply Ho. unfold overlapping, overlap, py_max, py_min.
    rewrite !Q.max_id, !Q.min_id. lra.
Qed.

Lemma calculate_iou_self_witness :
  calculate_iou (100, 100, 200, 200) (100, 100, 200, 200) == 1.
Proof.
  apply (calculate_iou_self (100, 100, 200, 200)); reflexivity.
Defined.

(** X4.  The IoU is 0 as soon as one of the boxes has no positive width
    or no positive height, or the boxes do not overlap in x or in y
    (touching edges included). *)
Theorem calculate_iou_zero :
  forall box1 box2 : BBox,
    let '(a1, b1, c1, d1) := box1 in
    let '(a2, b2, c2, d2) := box2 in
    box_width box1 <= 0 \/ box_height box1 <= 0
    \/ box_width box2 <= 0 \/ box_height box2 <= 0
    \/ c1 <= a2 \/ c2 <= a1 \/ d1 <= b2 \/ d2 <= b1 ->
    calculate_iou box1 box2 = 0.
Proof.
  intros [[[a1 b1] c1] d1] [[[a2 b2] c2] d2] Hz.
  destruct (calculate_iou_cases (a1, b1, c1, d1) (a2, b2, c2, d2))
    as [[Ho E]|[Ho E]]; [exfalso | exact E].
  unfold overlapping, overlap, box_width, box_height, py_max, py_min in *.
  pose proof (Q.le_max_l a1 a2). pose proof (Q.le_max_r a1 a2).
  pose proof (Q.le_max_l b1 b2). pose proof (Q.le_max_r b1 b2).
  pose proof (Q.le_min_l c1 c2). pose proof (Q.le_min_r c1 c2).
  pose proof (Q.le_min_l d1 d2). pose proof (Q.le_min_r d1 d2).
  lra.
Qed.

Lemma calculate_iou_zero_witness :
  calculate_iou (0, 0, 10, 10) (10, 0, 20, 10) = 0.
Proof.
  apply (calculate_iou_zero (0, 0, 10, 10) (10, 0, 20, 10)).
  right. right. right. right. left. apply Qle_refl.
Defined.

(** ** The matching rounds: what a match is *)

Section MatchSound.

Variable self : SingleObjectTracker.
Variable target : Z.
Variable ref : BBox.

Let iou (d : DetectionBox) : Q := calculate_iou ref (det_box d).

(** A detection a same-class loop with bar [thr] may accept. *)
Definition same_class_hit (thr : Q) (m : DetectionBox) : Prop :=
  det_class_id m = target /\ thr < iou m /\ 0 < iou m.

(** State of a same-class loop started from [no_best] after list [l]. *)
Definition same_class_sound (thr : Q) (src : MatchSource)
    (l : list DetectionBox) (b : Best) : Prop :=
  match best_match b with
  | None => b = no_best
  | Some m =>
      In m l /\ same_class_hit thr m
      /\ best_iou b = iou m /\ match_source b = src
  end.

Lemma same_class_fold_sound :
  forall thr src l,
    same_class_sound thr src l
      (fold_left (same_class_step target ref thr src) l no_best).
Proof.
  intros thr src l. induction l as [|x l IH] using rev_ind.
  - reflexivity.
  - rewrite fold_left_app. cbn [fold_left].
    set (b := fold_left (same_class_step target ref thr src) l no_best) in *.
    clearbody b. unfold same_class_step. fold (iou x).
    assert (Hmono : forall m, In m l -> In m (l ++ [x]))
      by (intros; apply in_or_app; now left).
    assert (Hkeep : same_class_sound thr src (l ++ [x]) b).
    { unfold same_class_sound in *. destruct (best_match b); [|exact IH].
      destruct IH as (Hin & Hrest). split; auto. }
    destruct (Z.eqb_spec (det_class_id x) target) as [Hc|Hc]; [|exact Hkeep].
    destruct (Qgtb (iou x) (best_iou b) && Qgtb (iou x) thr)%bool eqn:G;
      [|exact Hkeep].
    apply andb_true_iff in G as [G1 G2]. apply Qgtb_gt in G1, G2.
    unfold same_class_sound. cbn [best_match best_iou match_source].
    split; [apply in_or_app; right; now left|].
    split; [|split; reflexivity].
    repeat split; trivial.
    assert (0 <= best_iou b).
    { unfold same_class_sound in IH. destruct (best_match b) as [m|].
      - destruct IH as (_ & _ & -> & _). apply calculate_iou_nonneg.
      - rewrite IH. apply Qle_refl. }
    lra.
Qed.

(** A same-class loop started from [no_best] does not miss a hit. *)
Lemma same_class_fold_complete :
  forall thr src l d,
    In d l -> same_class_hit thr d ->
    best_match (fold_left (same_class_step target ref thr src) l no_best)
    <> None.
Proof.
  intros thr src l. induction l as [|x l IH] using rev_ind;
    intros d Hd Hhit; [destruct Hd|].
  rewrite fold_left_app. cbn [fold_left].
  pose proof (same_class_fold_sound thr src l) as Hs.
  set (b := fold_left (same_class_step target ref thr src) l no_best) in *.
  clearbody b. unfold same_class_step. fold (iou x).
  apply in_app_or in Hd as [Hd|[<-|[]]].
  - specialize (IH d Hd Hhit).
    destruct (Z.eqb (det_class_id x) target); [|exact IH].
    destruct (_ && _)%bool; [discriminate | exact IH].
  - destruct Hhit as (Hc & Ht & Hp). rewrite Hc, Z.eqb_refl.
    destruct (Qgtb (iou x) (best_iou b) && Qgtb (iou x) thr)%bool eqn:G;
      [discriminate|].
    unfold same_class_sound in Hs. destruct (best_match b); [discriminate|].
    subst b. cbn in G. apply andb_false_iff in G as [G|G];
      apply Qgtb_le in G; lra.
Qed.

(** After the first loop over [l]. *)
Definition tier1_sound (l : list DetectionBox) (b : Best) : Prop :=
  match best_match b with
  | None => b = no_best
  | Some m =>
      In m l /\ best_iou b = iou m
      /\ ((match_source b = high_conf_same_class
           /\ same_class_hit (high_iou_threshold self) m)
          \/ (match_source b = high_conf_diff_class
              /\ det_class_id m <> target
              /\ high_iou_threshold self * 1.2 < iou m))
  end.

Lemma tier1_is_sound : forall l, tier1_sound l (tier1 self target ref l).
Proof.
  induction l as [|x l IH] using rev_ind; [reflexivity|].
  rewrite tier1_snoc.
  set (b := tier1 self target ref l) in *. clearbody b.
  assert (Hkeep : tier1_sound (l ++ [x]) b).
  { unfold tier1_sound in *. destruct (best_match b); [|exact IH].
    destruct IH as (Hin & Hrest). split; [apply in_or_app; now left|].
    exact Hrest. }
  assert (Hnn : 0 <= best_iou b).
  { unfold tier1_sound in IH. destruct (best_match b) as [m|].
    - destruct IH as (_ & -> & _). apply calculate_iou_nonneg.
    - rewrite IH. apply Qle_refl. }
  unfold high_step. fold (iou x).
  destruct (Z.eqb_spec (det_class_id x) target) as [Hc|Hc].
  - destruct (Qgtb (iou x) (best_iou b)
              && Qgtb (iou x) (high_iou_threshold self))%bool eqn:G;
      [|exact Hkeep].
    apply andb_true_iff in G as [G1 G2]. apply Qgtb_gt in G1, G2.
    unfold tier1_sound. cbn [best_match best_iou match_source].
    split; [apply in_or_app; right; now left|]. split; [reflexivity|].
    left. split; [reflexivity|]. repeat split; trivial. lra.
  - destruct (is_none (best_match b)
              && Qgtb (iou x) (high_iou_threshold self * 1.2))%bool eqn:G;
      [|exact Hkeep].
    apply andb_true_iff in G as [_ G2]. apply Qgtb_gt in G2.
    unfold tier1_sound. cbn [best_match best_iou match_source].
    split; [apply in_or_app; right; now left|]. split; [reflexivity|].
    right. repeat split; trivial.
Qed.

End MatchSound.

(** What [find_match] may return, by the round that produced it. *)
Definition match_sound (self : SingleObjectTracker) (t : Track)
    (ref : BBox) (detections : list DetectionBox) (b : Best) : Prop :=
  match best_match b with
  | None => b = no_best
  | Some m =>
      best_iou b = calculate_iou ref (det_box m)
      /\ match match_source b with
         | none => False
         | high_conf_same_class =>
             In m (high_conf self detections)
             /\ same_class_hit (class_id t) ref (high_iou_threshold self) m
         | high_conf_diff_class =>
             In m (high_conf self detections)
             /\ det_class_id m <> class_id t
             /\ high_iou_threshold self * 1.2
                < calculate_iou ref (det_box m)
         | low_conf_same_class =>
             In m (low_conf self detections)
             /\ same_class_hit (class_id t) ref (low_iou_threshold self) m
         | recovery_match =>
             In m (high_conf self detections ++ low_conf self detections)
             /\ same_class_hit (class_id t) ref
                  (py_max 0.1 (low_iou_threshold self * 0.7)) m
             /\ state t = lost /\ (disappeared t < 10)%Z
         end
  end.

Lemma find_match_is_sound :
  forall (self : SingleObjectTracker) (t : Track) (ref : BBox)
         (detections : list DetectionBox),
    match_sound self t ref detections (find_match self t ref detections).
Proof.
  intros self t ref detections. unfold find_match.
  set (highs := high_conf self detections).
  set (lows := low_conf self detections).
  pose proof (tier1_is_sound self (class_id t) ref highs) as H1.
  set (b1 := tier1 self (class_id t) ref highs) in *. clearbody b1.
  unfold tier1_sound in H1.
  destruct (best_match b1) as [m1|] eqn:E1.
  - (* matched in round one *)
    assert (Hne : best_match b1 <> None) by (rewrite E1; discriminate).
    rewrite (tier2_keeps_match _ _ _ _ _ Hne).
    rewrite (tier3_keeps_match _ _ _ _ _ _ _ Hne).
    unfold match_sound. rewrite E1.
    destruct H1 as (Hin & Hbi & [[Hs Hhit]|[Hs [Hc Hi]]]); rewrite Hs; auto.
  - subst b1. unfold tier2. cbn [best_match no_best is_none].
    pose proof (same_class_fold_sound (class_id t) ref
                  (low_iou_threshold self) low_conf_same_class lows) as H2.
    set (b2 := fold_left _ lows no_best) in *. clearbody b2.
    unfold same_class_sound in H2.
    destruct (best_match b2) as [m2|] eqn:E2.
    + assert (Hne : best_match b2 <> None) by (rewrite E2; discriminate).
      rewrite (tier3_keeps_match _ _ _ _ _ _ _ Hne).
      unfold match_sound. rewrite E2.
      destruct H2 as (Hin & Hhit & Hbi & Hs). rewrite Hs. auto.
    + subst b2. unfold tier3. cbn [best_match no_best is_none andb].
      destruct (state t) eqn:Es; [reflexivity|].
      destruct (Z.ltb_spec (disappeared t) 10) as [Hd|Hd]; [|reflexivity].
      pose proof (same_class_fold_sound (class_id t) ref
                    (py_max 0.1 (low_iou_threshold self * 0.7))
                    recovery_match (highs ++ lows)) as H3.
      set (b3 := fold_left _ (highs ++ lows) no_best) in *. clearbody b3.
      cbn [andb]. unfold same_class_sound in H3. unfold match_sound.
      destruct (best_match b3) as [m3|]; [|exact H3].
      destruct H3 as (Hin & Hhit & Hbi & Hs). rewrite Hs. auto.
Qed.

(** X5.  Whatever the detections, the outcome of the three matching rounds
    is either no match, with the loop variables untouched, or a detection
    of the list recorded with its own IoU and the round that accepted it:
    round one accepts a high confidence detection, of the target's class
    with IoU above [high_iou_threshold], or of another class with IoU above
    1.2 times that; round two a low confidence detection of the target's
    class with IoU above [low_iou_threshold]; the recovery round a
    detection of the target's class with IoU above
    [max(0.1, 0.7 * low_iou_threshold)], and only for a track that is lost
    with [disappeared < 10].  A match of the target's class always overlaps
    the reference box. *)
Theorem find_match_sound :
  forall (self : SingleObjectTracker) (t : Track) (ref : BBox)
         (detections : list DetectionBox),
    match_sound self t ref detections (find_match self t ref detections).
Proof. exact find_match_is_sound. Qed.

Lemma matched_is_eligible :
  forall (self : SingleObjectTracker) (t : Track) (ref : BBox)
         (detections : list DetectionBox) (m : DetectionBox),
    best_match (find_match self t ref detections) = Some m ->
    In m detections
    /\ (low_conf_threshold self <= high_conf_threshold self ->
        low_conf_threshold self <= det_confidence m)
    /\ (det_class_id m <> class_id t ->
        high_conf_threshold self <= det_confidence m)
    /\ (0 <= high_iou_threshold self ->
        0 < calculate_iou ref (det_box m)).
Proof.
  intros self t ref detections m Hm.
  pose proof (find_match_is_sound self t ref detections) as Hs.
  unfold match_sound in Hs. rewrite Hm in Hs. destruct Hs as [_ Hs].
  assert (Hhigh : In m (high_conf self detections) ->
                  In m detections
                  /\ high_conf_threshold self <= det_confidence m).
  { intros Hin. apply filter_In in Hin as [Hin Hc].
    apply Qgeb_ge in Hc. auto. }
  assert (Hlow : In m (low_conf self detections) ->
                 In m detections
                 /\ low_conf_threshold self <= det_confidence m).
  { intros Hin. apply filter_In in Hin as [Hin Hc].
    apply andb_true_iff in Hc as [Hc _]. apply Qleb_le in Hc. auto. }
  destruct (match_source (find_match self t ref detections));
    try contradiction.
  - destruct Hs as (Hin & Hc & Ht & Hp). destruct (Hhigh Hin).
    repeat split; trivial; intros; first [lra | contradiction].
  - destruct Hs as (Hin & Hc & Ht). destruct (Hhigh Hin).
    repeat split; trivial; intros; lra.
  - destruct Hs as (Hin & Hc & Ht & Hp). destruct (Hlow Hin).
    repeat split; trivial; intros; first [lra | contradiction].
  - destruct Hs as (Hin & (Hc & Ht & Hp) & _).
    apply in_app_or in Hin as [Hin|Hin].
    + destruct (Hhigh Hin).
      repeat split; trivial; intros; first [lra | contradiction].
    + destruct (Hlow Hin).
      repeat split; trivial; intros; first [lra | contradiction].
Qed.

(** X6.  Consequences for the detection that is matched: it is one of the
    frame's detections, of high or low confidence (never below
    [low_conf_threshold] when that is at most [high_conf_threshold]); a
    match of another class than the target's is a high confidence one; and
    with a non-negative [high_iou_threshold] every match overlaps the
    reference box. *)
Theorem matched_detection_is_eligible :
  forall (self : SingleObjectTracker) (t : Track) (ref : BBox)
         (detections : list DetectionBox) (m : DetectionBox),
    best_match (find_match self t ref detections) = Some m ->
    In m detections
    /\ (low_conf_threshold self <= high_conf_threshold self ->
        low_conf_threshold self <= det_confidence m)
    /\ (det_class_id m <> class_id t ->
        high_conf_threshold self <= det_confidence m)
    /\ (0 <= high_iou_threshold self ->
        0 < calculate_iou ref (det_box m)).
Proof. exact matched_is_eligible. Qed.

Lemma matched_detection_is_eligible_witness :
  In confident_cup [weak_cup; confident_cup]
  /\ (low_conf_threshold seeded_tracker <= high_conf_threshold seeded_tracker
      -> low_conf_threshold seeded_tracker <= det_confidence confident_cup)
  /\ (det_class_id confident_cup <> class_id cup_track ->
      high_conf_threshold seeded_tracker <= det_confidence confident_cup)
  /\ (0 <= high_iou_threshold seeded_tracker ->
      0 < calculate_iou cup_box (det_box confident_cup)).
Proof.
  apply (matched_detection_is_eligible seeded_tracker cup_track cup_box
           [weak_cup; confident_cup] confident_cup).
  vm_compute. reflexivity.
Defined.

Lemma tier1_complete :
  forall self target ref l d,
    In d l ->
    same_class_hit target ref (high_iou_threshold self) d ->
    best_match (tier1 self target ref l) <> None.
Proof.
  intros self target ref l. induction l as [|x l IH] using rev_ind;
    intros d Hd Hhit; [destruct Hd|].
  rewrite tier1_snoc.
  pose proof (tier1_is_sound self target ref l) as Hs.
  set (b := tier1 self target ref l) in *. clearbody b.
  unfold high_step.
  apply in_app_or in Hd as [Hd|[<-|[]]].
  - specialize (IH d Hd Hhit).
    destruct (Z.eqb (det_class_id x) target).
    + destruct (_ && _)%bool; [discriminate | exact IH].
    + destruct (_ && _)%bool; [discriminate | exact IH].
  - destruct Hhit as (Hc & Ht & Hp). rewrite Hc, Z.eqb_refl.
    destruct (Qgtb _ (best_iou b) && Qgtb _ _)%bool eqn:G; [discriminate|].
    unfold tier1_sound in Hs. destruct (best_match b); [discriminate|].
    subst b. cbn in G. apply andb_false_iff in G as [G|G];
      apply Qgtb_le in G; lra.
Qed.

(** X7.  A frame is never a miss while some detection of the target's
    class overlaps the reference box and is eligible for a round: of high
    confidence with IoU above [high_iou_threshold]; or of low confidence
    with IoU above [low_iou_threshold]; or, for a track that is lost with
    [disappeared < 10], of high or low confidence with IoU above the
    recovery bar. *)
Theorem eligible_detection_gives_match :
  forall (self : SingleObjectTracker) (t : Track) (ref : BBox)
         (detections : list DetectionBox) (d : DetectionBox),
    det_class_id d = class_id t ->
    0 < calculate_iou ref (det_box d) ->
    (In d (high_conf self detections)
     /\ high_iou_threshold self < calculate_iou ref (det_box d))
    \/ (In d (low_conf self detections)
        /\ low_iou_threshold self < calculate_iou ref (det_box d))
    \/ (In d (high_conf self detections ++ low_conf self detections)
        /\ py_max 0.1 (low_iou_threshold self * 0.7)
           < calculate_iou ref (det_box d)
        /\ state t = lost /\ (disappeared t < 10)%Z) ->
    best_match (find_match self t ref detections) <> None.
Proof.
  intros self t ref detections d Hc Hp Hel. unfold find_match.
  set (highs := high_conf self detections) in *.
  set (lows := low_conf self detections) in *.
  pose proof (tier1_is_sound self (class_id t) ref highs) as H1.
  set (b1 := tier1 self (class_id t) ref highs) in *.
  destruct (best_match b1) as [m1|] eqn:E1.
  { assert (Hne : best_match b1 <> None) by (rewrite E1; discriminate).
    rewrite (tier2_keeps_match _ _ _ _ _ Hne).
    now rewrite (tier3_keeps_match _ _ _ _ _ _ _ Hne). }
  destruct Hel as [[Hin Hi]|Hel].
  { exfalso. apply (tier1_complete self (class_id t) ref highs d Hin);
      [repeat split; assumption | exact E1]. }
  unfold tier1_sound in H1. rewrite E1 in H1. rewrite H1.
  unfold tier2. cbn [best_match no_best is_none].
  pose proof (same_class_fold_sound (class_id t) ref
                (low_iou_threshold self) low_conf_same_class lows) as H2.
  set (b2 := fold_left _ lows no_best) in *.
  destruct (best_match b2) as [m2|] eqn:E2.
  { assert (Hne : best_match b2 <> None) by (rewrite E2; discriminate).
    now rewrite (tier3_keeps_match _ _ _ _ _ _ _ Hne). }
  destruct Hel as [[Hin Hi]|(Hin & Hi & Hs & Hd)].
  { exfalso.
    apply (same_class_fold_complete (class_id t) ref
             (low_iou_threshold self) low_conf_same_class lows d Hin);
      [repeat split; assumption | exact E2]. }
  unfold same_class_sound in H2. rewrite E2 in H2. rewrite H2.
  unfold tier3. cbn [best_match no_best is_none]. rewrite Hs.
  apply Z.ltb_lt in Hd. rewrite Hd. cbn [andb].
  apply (same_class_fold_complete (class_id t) ref _ recovery_match
           (highs ++ lows) d Hin).
  repeat split; assumption.
Qed.

Lemma eligible_detection_gives_match_witness :
  best_match (find_match seeded_tracker cup_track cup_box
                         [weak_cup])
  <> None.
Proof.
  apply (eligible_detection_gives_match seeded_tracker cup_track cup_box
           [weak_cup] weak_cup).
  - reflexivity.
  - qdec.
  - right. left. split; [vm_compute; tauto | qdec].
Defined.

Lemma filter_filter_implied :
  forall {A} (f p : A -> bool) (l : list A),
    (forall x, f x = true -> p x = true) ->
    filter f (filter p l) = filter f l.
Proof.
  intros A f p l H. induction l as [|x l IH]; [reflexivity|].
  cbn. destruct (p x) eqn:Ep.
  - cbn. now rewrite IH.
  - rewrite IH. destruct (f x) eqn:Ef; [|reflexivity].
    rewrite (H x Ef) in Ep. discriminate.
Qed.

(** X8.  Detections of confidence below [low_conf_threshold] play no part:
    with [low_conf_threshold <= high_conf_threshold], removing them from
    the list changes nothing in the outcome of the matching rounds. *)
Theorem weak_detections_are_ignored :
  forall (self : SingleObjectTracker) (t : Track) (ref : BBox)
         (detections : list DetectionBox),
    low_conf_threshold self <= high_conf_threshold self ->
    find_match self t ref
      (filter (fun d => Qleb (low_conf_threshold self) (det_confidence d))
              detections)
    = find_match self t ref detections.
Proof.
  intros self t ref detections Hle. unfold find_match, high_conf, low_conf.
  rewrite !filter_filter_implied; [reflexivity| |].
  - intros d H. apply andb_true_iff in H as [H _]. exact H.
  - intros d H. apply Qgeb_ge in H. apply Qleb_le. lra.
Qed.

(** A cup the detector is almost sure not to be there: below
    [low_conf_threshold]. *)
Definition faint_cup : DetectionBox :=
  {| det_x1 := 100; det_y1 := 100; det_x2 := 200; det_y2 := 200;
     det_confidence := 0.1; det_class_id := 41; det_class_name := "cup" |}.

Lemma weak_detections_are_ignored_witness :
  find_match seeded_tracker cup_track cup_box
    (filter (fun d => Qleb (low_conf_threshold seeded_tracker)
                           (det_confidence d))
            [faint_cup; weak_cup; confident_cup])
  = find_match seeded_tracker cup_track cup_box
      [faint_cup; weak_cup; confident_cup].
Proof.
  apply (weak_detections_are_ignored seeded_tracker cup_track cup_box
           [faint_cup; weak_cup; confident_cup]).
  qdec.
Defined.

(** ** The tracker over its reachable states *)

(** What every reachable tracker satisfies. *)
Record tracker_ok (self : SingleObjectTracker) : Prop := {
  ok_track_id : track_id self = 0%Z;
  ok_high_conf : high_conf_threshold self = 0.5;
  ok_low_conf : low_conf_threshold self = 0.25;
  ok_tracking : is_tracking self = true <-> target_track self <> None;
  ok_track : forall t, target_track self = Some t ->
               (0 <= disappeared t)%Z
               /\ (state t = tracked <-> disappeared t = 0%Z)
               /\ (disappeared t = 0 \/ disappeared t <= max_disappeared self)%Z
}.

Lemma update_outcomes :
  forall self detections frame_id,
    let r := update self detections frame_id in
    (is_tracking self = false \/ target_track self = None) /\ r = (self, Returns [])
    \/ exists t kf,
         is_tracking self = true /\ target_track self = Some t
         /\ kf = fst (Kalman.predict (kalman_filter self))
         /\ ((exists m kf' e,
                matched self t detections = Some m
                /\ Kalman.update kf (det_box m) = (kf', Raises e)
                /\ r = (set_track self (Some t) true kf', Raises e))
             \/ (exists m kf' t' b,
                   matched self t detections = Some m
                   /\ Kalman.update kf (det_box m) = (kf', Returns tt)
                   /\ t' = {| box := det_box m;
                              class_id := class_id t;
                              class_name := class_name t;
                              disappeared := 0;
                              confidence := det_confidence m;
                              last_frame := frame_id;
                              state := tracked |}
                   /\ r = (set_track self (Some t') true kf',
                           Returns [box_tracking self t' b
                                      (det_confidence m) frame_id]))
             \/ (matched self t detections = None
                 /\ (disappeared t + 1 > max_disappeared self)%Z
                 /\ r = (set_track self None false kf, Returns []))
             \/ (matched self t detections = None
                 /\ (disappeared t + 1 <= max_disappeared self)%Z
                 /\ r = (set_track self (Some (missed_track t)) true kf,
                         Returns [box_tracking self (missed_track t)
                                    (reference_box self t)
                                    (py_max 0.1
                                       (confidence t
                                        - 0.05 * inject_Z (disappeared t + 1)))
                                    frame_id]))).
Proof.
  intros self detections frame_id r.
  destruct (is_tracking self) eqn:Htr.
  2:{ left. split; [now left|]. subst r. now apply update_not_tracking. }
  destruct (target_track self) as [t|] eqn:Ht.
  2:{ left. split; [now right|]. subst r. unfold update.
      now rewrite Htr, Ht. }
  right. exists t, (fst (Kalman.predict (kalman_filter self))).
  split; [reflexivity|]. split; [reflexivity|]. split; [reflexivity|].
  destruct (matched self t detections) as [m|] eqn:Hm.
  - subst r. unfold matched, reference_box in Hm. unfold update.
    rewrite Htr, Ht.
    destruct (Kalman.predict (kalman_filter self)) as [kf predicted].
    cbn [fst snd] in *. rewrite Hm.
    destruct (Kalman.update kf (det_box m)) as [kf' [[]|e]] eqn:Eu.
    + right. left. exists m, kf'. do 2 eexists.
      split; [reflexivity|]. split; [exact Eu|].
      split; [reflexivity|]. reflexivity.
    + left. exists m, kf', e.
      split; [reflexivity|]. split; [exact Eu | reflexivity].
  - subst r. rewrite (update_miss _ _ _ _ Htr Ht Hm).
    destruct (Z.gtb_spec (disappeared t + 1) (max_disappeared self)).
    + right. right. left. repeat split. lia.
    + right. right. right. repeat split. lia.
Qed.

Ltac ok_fields :=
  constructor; cbn; trivial; try easy;
  try (intros ? E; inversion E; subst; cbn;
       repeat split; intros; solve [lia | easy | tauto]).

Lemma tracker_reachable_ok :
  forall self, tracker_reachable self -> tracker_ok self.
Proof.
  induction 1 as [| self b f _ IH | self detections f Hr IH | self _ IH].
  - ok_fields.
  - destruct IH. ok_fields.
  - destruct IH as [I1 I2 I3 I4 I5].
    destruct (update_outcomes self detections f)
      as [[_ ->]|(t & kf & Htr & Ht & _ & Hcase)].
    { constructor; assumption. }
    destruct (I5 t Ht) as (H0 & H1 & H2).
    destruct Hcase as [(m & kf' & e & _ & _ & ->)
                      |[(m & kf' & t' & b & _ & _ & -> & ->)
                      |[(_ & _ & ->)|(_ & Hd & ->)]]];
      ok_fields.
  - destruct IH. ok_fields.
Qed.

(** X9.  In every state the operations of the class can produce: the
    track id is 0 and the two confidence thresholds are 0.5 and 0.25; the
    tracker is tracking exactly when it holds a track; and the track's
    counter is never negative, is 0 exactly in state [tracked], and, once
    positive, is at most [max_disappeared]. *)
Theorem reachable_tracker_invariant :
  forall self : SingleObjectTracker,
    tracker_reachable self ->
    track_id self = 0%Z
    /\ high_conf_threshold self = 0.5
    /\ low_conf_threshold self = 0.25
    /\ (is_tracking self = true <-> target_track self <> None)
    /\ forall t, target_track self = Some t ->
         (0 <= disappeared t)%Z
         /\ (state t = tracked <-> disappeared t = 0%Z)
         /\ (disappeared t = 0 \/ disappeared t <= max_disappeared self)%Z.
Proof.
  intros self H.
  destruct (tracker_reachable_ok self H) as [I1 I2 I3 I4 I5].
  split; [exact I1|]. split; [exact I2|]. split; [exact I3|].
  split; [exact I4|].
  intros t Ht. destruct (I5 t Ht) as (? & ? & ?). tauto.
Qed.

Lemma reachable_tracker_invariant_witness :
  track_id seeded_tracker = 0%Z
  /\ high_conf_threshold seeded_tracker = 0.5
  /\ low_conf_threshold seeded_tracker = 0.25
  /\ (is_tracking seeded_tracker = true
      <-> target_track seeded_tracker <> None)
  /\ forall t, target_track seeded_tracker = Some t ->
       (0 <= disappeared t)%Z
       /\ (state t = tracked <-> disappeared t = 0%Z)
       /\ (disappeared t = 0
           \/ disappeared t <= max_disappeared seeded_tracker)%Z.
Proof.
  apply (reachable_tracker_invariant seeded_tracker).
  apply reach_initialize_target, reach_new_tracker.
Defined.

Lemma box_tracking_fields :
  forall self t b conf frame_id,
    let tb := box_tracking self t b conf frame_id in
    tb_track_id tb = track_id self
    /\ tb_frame_id tb = frame_id
    /\ tb_class_id tb = class_id t
    /\ tb_class_name tb = class_name t.
Proof. intros self t [[[x1 y1] x2] y2] conf frame_id. repeat split. Qed.

(** On a reachable tracker the correction step of [update] never raises. *)
Lemma reachable_update_outcomes :
  forall self detections frame_id,
    tracker_reachable self ->
    let r := update self detections frame_id in
    (is_tracking self = false /\ r = (self, Returns []))
    \/ exists t,
         is_tracking self = true /\ target_track self = Some t
         /\ ((exists m kf' b,
                matched self t detections = Some m
                /\ r = (set_track self
                          (Some {| box := det_box m;
                                   class_id := class_id t;
                                   class_name := class_name t;
                                   disappeared := 0;
                                   confidence := det_confidence m;
                                   last_frame := frame_id;
                                   state := tracked |}) true kf',
                        Returns [box_tracking self
                                   {| box := det_box m;
                                      class_id := class_id t;
                                      class_name := class_name t;
                                      disappeared := 0;
                                      confidence := det_confidence m;
                                      last_frame := frame_id;
                                      state := tracked |}
                                   b (det_confidence m) frame_id]))
             \/ (exists kf,
                   matched self t detections = None
                   /\ (disappeared t + 1 > max_disappeared self)%Z
                   /\ r = (set_track self None false kf, Returns []))
             \/ (exists kf,
                   matched self t detections = None
                   /\ (disappeared t + 1 <= max_disappeared self)%Z
                   /\ r = (set_track self (Some (missed_track t)) true kf,
                           Returns [box_tracking self (missed_track t)
                                      (reference_box self t)
                                      (py_max 0.1
                                         (confidence t
                                          - 0.05
                                            * inject_Z (disappeared t + 1)))
                                      frame_id]))).
Proof.
  intros self detections frame_id Hreach r.
  pose proof (tracker_reachable_ok self Hreach) as [_ _ _ I4 _].
  destruct (update_outcomes self detections frame_id)
    as [[Hdead E]|(t & kf & Htr & Ht & Hkf & Hcase)].
  - left. split; [|exact E].
    destruct Hdead as [Hd|Hd]; [exact Hd|].
    destruct (is_tracking self); [|reflexivity].
    exfalso. now apply (proj1 I4).
  - right. exists t. split; [exact Htr|]. split; [exact Ht|].
    destruct Hcase as [(m & kf' & e & _ & Eu & _)
                      |[(m & kf' & t' & b & Hm & _ & -> & E)
                      |[(Hm & Hd & E)|(Hm & Hd & E)]]].
    + exfalso.
      pose proof (Covariance.reachable_update_returns kf (det_box m)) as Hr.
      rewrite Eu in Hr. cbn in Hr.
      assert (Raises e = Returns tt :> result unit); [|discriminate].
      apply Hr. subst kf.
      apply Covariance.reach_predict, tracker_reachable_filter, Hreach.
    + left. exists m, kf', b. split; [exact Hm | exact E].
    + right. left. exists kf. auto.
    + right. right. exists kf. auto.
Qed.

(** X10.  On a reachable tracker [update] never raises and returns at most
    one tracking box; the list is non-empty exactly when the tracker is
    still tracking after the call. *)
Theorem update_returns_at_most_one_box :
  forall (self : SingleObjectTracker) (detections : list DetectionBox)
         (frame_id : Z),
    tracker_reachable self ->
    exists l,
      snd (update self detections frame_id) = Returns l
      /\ (List.length l <= 1)%nat
      /\ (l <> [] <-> is_tracking (fst (update self detections frame_id))
                      = true).
Proof.
  intros self detections frame_id Hreach.
  destruct (reachable_update_outcomes self detections frame_id Hreach)
    as [[Hd ->]|(t & Htr & Ht & [(m & kf' & b & _ & ->)
                                |[(kf & _ & _ & ->)|(kf & _ & _ & ->)]])];
    eexists; (split; [reflexivity|]); cbn; (split; [lia|]);
    split; intros; congruence.
Qed.

Lemma update_returns_at_most_one_box_witness :
  exists l,
    snd (update seeded_tracker [shifted_cup] 1) = Returns l
    /\ (List.length l <= 1)%nat
    /\ (l <> [] <-> is_tracking (fst (update seeded_tracker [shifted_cup] 1))
                    = true).
Proof.
  apply (update_returns_at_most_one_box seeded_tracker [shifted_cup] 1).
  apply reach_initialize_target, reach_new_tracker.
Defined.

Definition returned {A} (r : result (list A)) : list A :=
  match r with Returns l => l | Raises _ => [] end.

(** X11.  Identity of the target.  Every box [update] returns on a
    reachable tracker carries the frame id of the call, track id 0, and
    the class id and class name of the track as it was before the call;
    and the class of the track is the same after the call, also when the
    matched detection is of another class. *)
Theorem update_keeps_identity :
  forall (self : SingleObjectTracker) (detections : list DetectionBox)
         (frame_id : Z) (t : Track),
    tracker_reachable self ->
    target_track self = Some t ->
    (forall tb,
       In tb (returned (snd (update self detections frame_id))) ->
       tb_frame_id tb = frame_id
       /\ tb_track_id tb = 0%Z
       /\ tb_class_id tb = class_id t
       /\ tb_class_name tb = class_name t)
    /\ (forall t',
          target_track (fst (update self detections frame_id)) = Some t' ->
          class_id t' = class_id t /\ class_name t' = class_name t).
Proof.
  intros self detections frame_id t Hreach Ht.
  pose proof (tracker_reachable_ok self Hreach) as [I1 _ _ _ _].
  destruct (reachable_update_outcomes self detections frame_id Hreach)
    as [[Hd ->]|(t0 & Htr & Ht0 & Hcase)].
  { cbn. split; [intros tb []|]. intros t' E. rewrite Ht in E.
    inversion E; subst. auto. }
  rewrite Ht in Ht0. inversion Ht0; subst t0. clear Ht0.
  destruct Hcase as [(m & kf' & b & _ & ->)
                    |[(kf & _ & _ & ->)|(kf & _ & _ & ->)]];
    cbn [fst snd returned set_track target_track In].
  - split.
    + intros tb [<-|[]].
      destruct (box_tracking_fields self
                  {| box := det_box m; class_id := class_id t;
                     class_name := class_name t; disappeared := 0;
                     confidence := det_confidence m; last_frame := frame_id;
                     state := tracked |} b (det_confidence m) frame_id)
        as (H1 & H2 & H3 & H4).
      rewrite H1, H2, H3, H4. cbn. auto.
    + intros t' E. inversion E; subst t'. cbn. auto.
  - split; [intros tb []|]. intros t' E. discriminate.
  - split.
    + intros tb [<-|[]].
      destruct (box_tracking_fields self (missed_track t)
                  (reference_box self t)
                  (py_max 0.1 (confidence t
                               - 0.05 * inject_Z (disappeared t + 1)))
                  frame_id) as (H1 & H2 & H3 & H4).
      rewrite H1, H2, H3, H4. cbn. auto.
    + intros t' E. inversion E; subst t'. cbn. auto.
Qed.

Lemma update_keeps_identity_witness :
  (forall tb,
     In tb (returned (snd (update seeded_tracker [confident_bowl] 1))) ->
     tb_frame_id tb = 1%Z
     /\ tb_track_id tb = 0%Z
     /\ tb_class_id tb = class_id cup_track
     /\ tb_class_name tb = class_name cup_track)
  /\ (forall t',
        target_track (fst (update seeded_tracker [confident_bowl] 1))
        = Some t' ->
        class_id t' = class_id cup_track
        /\ class_name t' = class_name cup_track).
Proof.
  apply (update_keeps_identity seeded_tracker [confident_bowl] 1 cup_track).
  - apply reach_initialize_target, reach_new_tracker.
  - reflexivity.
Defined.

(** X12.  No box returned by [update] on a reachable tracker has a
    confidence below 0.1: a matched box carries the confidence of a
    detection of at least 0.25, a predicted one is floored at 0.1. *)
Theorem emitted_confidence_floor :
  forall (self : SingleObjectTracker) (detections : list DetectionBox)
         (frame_id : Z),
    tracker_reachable self ->
    Forall (fun tb => 0.1 <= tb_confidence tb)
           (returned (snd (update self detections frame_id))).
Proof.
  intros self detections frame_id Hreach.
  pose proof (tracker_reachable_ok self Hreach) as [_ I2 I3 _ _].
  destruct (reachable_update_outcomes self detections frame_id Hreach)
    as [[Hd ->]|(t & Htr & Ht & [(m & kf' & b & Hm & ->)
                                |[(kf & _ & _ & ->)|(kf & _ & _ & ->)]])];
    cbn [snd returned]; repeat constructor;
    rewrite tb_confidence_box_tracking.
  - destruct (matched_is_eligible self t _ detections m Hm)
      as (_ & Hlow & _).
    rewrite I2, I3 in Hlow.
    assert (0.25 <= det_confidence m) by (apply Hlow; lra). lra.
  - unfold py_max. apply Q.le_max_l.
Qed.

Lemma emitted_confidence_floor_witness :
  Forall (fun tb => 0.1 <= tb_confidence tb)
         (returned (snd (update seeded_tracker [] 1))).
Proof.
  apply (emitted_confidence_floor seeded_tracker [] 1).
  apply reach_initialize_target, reach_new_tracker.
Defined.

(** ** Consecutive frames without a detection *)

Lemma find_match_nil :
  forall self t ref, find_match self t ref [] = no_best.
Proof.
  intros self t ref. unfold find_match, tier3. cbn.
  now destruct (state t), (Z.ltb (disappeared t) 10).
Qed.

(** [n] consecutive calls of [update] on frames [frame_id], [frame_id+1],
    ... on which the detector reports nothing. *)
Fixpoint empty_frames (n : nat) (self : SingleObjectTracker) (frame_id : Z)
  : SingleObjectTracker * list (result (list TrackingBox)) :=
  match n with
  | O => (self, [])
  | S n' =>
      let '(self1, r) := update self [] frame_id in
      let '(self2, rs) := empty_frames n' self1 (frame_id + 1) in
      (self2, r :: rs)
  end.

(** What the [k]-th of these calls reports for a track of stored
    confidence [c] that had missed [d] frames before. *)
Definition decayed (max_disappeared : Z) (c : Q) (d : Z) (k : nat)
  : list Q :=
  if (d + Z.of_nat k <=? max_disappeared)%Z
  then [py_max 0.1 (c - 0.05 * inject_Z (d + Z.of_nat k))]
  else [].

Lemma empty_frames_dead :
  forall n self frame_id,
    is_tracking self = false ->
    fst (empty_frames n self frame_id) = self
    /\ map (fun r => map tb_confidence (returned r))
           (snd (empty_frames n self frame_id))
       = repeat [] n.
Proof.
  induction n as [|n IH]; intros self frame_id H; [split; reflexivity|].
  cbn [empty_frames]. rewrite (update_not_tracking _ _ _ H).
  destruct (IH self (frame_id + 1)%Z H) as [IH1 IH2].
  destruct (empty_frames n self (frame_id + 1)) as [self2 rs].
  cbn in *. split; [exact IH1 | now rewrite IH2].
Qed.

Lemma decayed_dead :
  forall max c d n k0,
    (d + Z.of_nat k0 > max)%Z ->
    map (fun k => decayed max c d k) (seq (S k0) n) = repeat [] n.
Proof.
  intros max c d n. induction n as [|n IH]; intros k0 H; [reflexivity|].
  cbn [seq map repeat]. rewrite IH by lia. f_equal.
  unfold decayed. destruct (Z.leb_spec (d + Z.of_nat (S k0)) max);
    [lia | reflexivity].
Qed.

Lemma empty_frames_spec :
  forall n self frame_id t k0 d0,
    is_tracking self = true ->
    target_track self = Some t ->
    disappeared t = (d0 + Z.of_nat k0)%Z ->
    is_tracking (fst (empty_frames n self frame_id))
    = (d0 + Z.of_nat (k0 + n) <=? max_disappeared self)%Z
      || (n =? 0)%nat
    /\ map (fun r => map tb_confidence (returned r))
           (snd (empty_frames n self frame_id))
       = map (fun k => decayed (max_disappeared self) (confidence t) d0 k)
             (seq (S k0) n).
Proof.
  induction n as [|n IH]; intros self frame_id t k0 d0 Htr Ht Hd.
  - cbn. rewrite Htr, orb_true_r. split; reflexivity.
  - cbn [empty_frames].
    assert (Hm : matched self t [] = None).
    { unfold matched. now rewrite find_match_nil. }
    rewrite (update_miss _ _ frame_id _ Htr Ht Hm).
    rewrite Nat.eqb_compare. cbn [Nat.compare]. rewrite orb_false_r.
    destruct (Z.gtb_spec (disappeared t + 1) (max_disappeared self))
      as [Hgt|Hle].
    + (* the track ends on this frame *)
      destruct (empty_frames_dead n
                  (set_track self None false
                     (fst (Kalman.predict (kalman_filter self))))
                  (frame_id + 1)%Z eq_refl) as [E1 E2].
      destruct (empty_frames n _ (frame_id + 1)) as [self2 rs].
      cbn [fst snd] in *. subst self2. cbn [is_tracking set_track].
      split.
      * symmetry. apply Z.leb_gt. lia.
      * cbn [map seq returned]. rewrite E2.
        rewrite decayed_dead by lia. f_equal.
        unfold decayed. destruct (Z.leb_spec (d0 + Z.of_nat (S k0))
                                             (max_disappeared self));
          [lia | reflexivity].
    + set (self1 := set_track self (Some (missed_track t)) true
                      (fst (Kalman.predict (kalman_filter self)))).
      destruct (IH self1 (frame_id + 1)%Z (missed_track t) (S k0) d0
                  eq_refl eq_refl) as [IH1 IH2].
      { cbn. lia. }
      destruct (empty_frames n self1 (frame_id + 1)) as [self2 rs].
      cbn [fst snd] in *. split.
      * rewrite IH1. cbn [max_disappeared self1 set_track].
        replace (S k0 + n)%nat with (k0 + S n)%nat by lia.
        destruct n as [|n]; [|now rewrite orb_false_r].
        cbn [Nat.eqb]. rewrite orb_true_r. symmetry. apply Z.leb_le.
        lia.
      * cbn [map seq returned]. rewrite IH2.
        rewrite tb_confidence_box_tracking. f_equal.
        unfold decayed. rewrite Hd.
        destruct (Z.leb_spec (d0 + Z.of_nat (S k0)) (max_disappeared self));
          [|lia].
        replace (d0 + Z.of_nat (S k0))%Z with (d0 + Z.of_nat k0 + 1)%Z
          by lia.
        reflexivity.
Qed.

(** X13.  Occlusion budget.  Take a tracking tracker whose track has just
    been seeded or matched ([disappeared = 0]) with stored confidence [c],
    and [n >= 1] consecutive frames on which the detector reports nothing.
    The tracker is still tracking after them exactly when
    [n <= max_disappeared]; the [k]-th of these frames returns one box of
    confidence [max(0.1, c - 0.05 * k)] while [k <= max_disappeared], and
    nothing from then on. *)
Theorem occlusion_budget :
  forall (n : nat) (self : SingleObjectTracker) (frame_id : Z) (t : Track),
    is_tracking self = true ->
    target_track self = Some t ->
    disappeared t = 0%Z ->
    (0 < n)%nat ->
    is_tracking (fst (empty_frames n self frame_id))
    = (Z.of_nat n <=? max_disappeared self)%Z
    /\ map (fun r => map tb_confidence (returned r))
           (snd (empty_frames n self frame_id))
       = map (fun k => decayed (max_disappeared self) (confidence t) 0 k)
             (seq 1 n).
Proof.
  intros n self frame_id t Htr Ht Hd Hn.
  destruct (empty_frames_spec n self frame_id t 0 0 Htr Ht Hd) as [H1 H2].
  split; [|exact H2].
  rewrite H1. destruct n; [lia|]. cbn [Nat.eqb]. rewrite orb_false_r.
  reflexivity.
Qed.

Lemma occlusion_budget_witness :
  is_tracking (fst (empty_frames 31 seeded_tracker 1))
  = (Z.of_nat 31 <=? max_disappeared seeded_tracker)%Z
  /\ map (fun r => map tb_confidence (returned r))
         (snd (empty_frames 31 seeded_tracker 1))
     = map (fun k => decayed (max_disappeared seeded_tracker)
                             (confidence cup_track) 0 k)
           (seq 1 31).
Proof.
  apply (occlusion_budget 31 seeded_tracker 1 cup_track).
  - reflexivity.
  - reflexivity.
  - reflexivity.
  - lia.
Defined.

Definition same_parameters (a b : SingleObjectTracker) : Prop :=
  max_disappeared a = max_disappeared b
  /\ high_iou_threshold a = high_iou_threshold b
  /\ low_iou_threshold a = low_iou_threshold b.

(** X14.  [reset] forgets everything but the three constructor
    parameters: on a reachable tracker it returns the tracker the
    constructor builds from them, with a fresh Kalman filter.  And no
    operation changes these parameters. *)
Theorem reset_is_constructor :
  forall self : SingleObjectTracker,
    tracker_reachable self ->
    reset self
    = new_tracker (max_disappeared self) (high_iou_threshold self)
                  (low_iou_threshold self)
    /\ forall detections frame_id manual_box,
         same_parameters (fst (update self detections frame_id)) self
         /\ same_parameters (initialize_target self manual_box frame_id) self
         /\ same_parameters (reset self) self.
Proof.
  intros self Hreach.
  pose proof (tracker_reachable_ok self Hreach) as [I1 I2 I3 _ _].
  split.
  - unfold reset, set_track, new_tracker. now rewrite I1, I2, I3.
  - intros detections frame_id manual_box. unfold same_parameters.
    split; [|split; repeat split].
    destruct (update_outcomes self detections frame_id)
      as [[_ ->]|(t & kf & _ & _ & _ & Hcase)]; [repeat split|].
    destruct Hcase as [(m & kf' & e & _ & _ & ->)
                      |[(m & kf' & t' & b & _ & _ & _ & ->)
                      |[(_ & _ & ->)|(_ & _ & ->)]]]; repeat split.
Qed.

Lemma reset_is_constructor_witness :
  reset seeded_tracker
  = new_tracker (max_disappeared seeded_tracker)
                (high_iou_threshold seeded_tracker)
                (low_iou_threshold seeded_tracker)
  /\ forall detections frame_id manual_box,
       same_parameters (fst (update seeded_tracker detections frame_id))
                       seeded_tracker
       /\ same_parameters
            (initialize_target seeded_tracker manual_box frame_id)
            seeded_tracker
       /\ same_parameters (reset seeded_tracker) seeded_tracker.
Proof.
  apply (reset_is_constructor seeded_tracker).
  exact (reach_initialize_target _ _ _ (reach_new_tracker 30 0.3 0.15)).
Defined.

(** ** The Kalman filter over its reachable states *)

Module KalmanFacts.
Import Mat Kalman Covariance.

(** An 8x1 (or 4x1) array, as [self.x], [z] and [y] are. *)
Definition colvec (l : list Q) : matrix := map (fun v => [v]) l.

Ltac vec_eq :=
  unfold colvec; cbn;
  repeat match goal with
         | |- (_ :: _) = (_ :: _) => apply cons_eq
         | |- [] = [] => reflexivity
         | |- Qred _ = Qred _ => apply Qred_complete
         | |- Qred _ = 0 => apply Qred_zero
         end.

Lemma F_colvec v0 v1 v2 v3 v4 v5 v6 v7 :
  mmul F (colvec [v0; v1; v2; v3; v4; v5; v6; v7])
  = colvec [Qred (v0 + v4); Qred (v1 + v5); Qred (v2 + v6); Qred (v3 + v7);
            Qred v4; Qred v5; Qred v6; Qred v7].
Proof. vec_eq; ring. Qed.

Lemma H_colvec v0 v1 v2 v3 v4 v5 v6 v7 :
  mmul H (colvec [v0; v1; v2; v3; v4; v5; v6; v7])
  = colvec [Qred v0; Qred v1; Qred v2; Qred v3].
Proof. vec_eq; ring. Qed.

Lemma msub_colvec4 z0 z1 z2 z3 h0 h1 h2 h3 :
  msub (colvec [z0; z1; z2; z3]) (colvec [h0; h1; h2; h3])
  = colvec [Qred (z0 - h0); Qred (z1 - h1); Qred (z2 - h2); Qred (z3 - h3)].
Proof. reflexivity. Qed.

Lemma vblock_colvec k0 k1 k2 k3 y0 y1 y2 y3 :
  mmul (vblock k0 k1 k2 k3) (colvec [y0; y1; y2; y3])
  = colvec [Qred (fst k0 * y0); Qred (fst k1 * y1);
            Qred (fst k2 * y2); Qred (fst k3 * y3);
            Qred (snd k0 * y0); Qred (snd k1 * y1);
            Qred (snd k2 * y2); Qred (snd k3 * y3)].
Proof. blocks. vec_eq; ring. Qed.

Lemma madd_colvec8 v0 v1 v2 v3 v4 v5 v6 v7 w0 w1 w2 w3 w4 w5 w6 w7 :
  madd (colvec [v0; v1; v2; v3; v4; v5; v6; v7])
       (colvec [w0; w1; w2; w3; w4; w5; w6; w7])
  = colvec [Qred (v0 + w0); Qred (v1 + w1); Qred (v2 + w2); Qred (v3 + w3);
            Qred (v4 + w4); Qred (v5 + w5); Qred (v6 + w6); Qred (v7 + w7)].
Proof. reflexivity. Qed.

(** The state of a reachable filter is a column of eight numbers. *)
Definition x_shape (kf : KalmanFilter) : Prop :=
  exists v0 v1 v2 v3 v4 v5 v6 v7,
    kf_x kf = colvec [v0; v1; v2; v3; v4; v5; v6; v7].

(** The observation [z] that [update] forms from a box. *)
Definition observation (bbox : BBox) : list Q :=
  let '(x1, y1, x2, y2) := bbox in
  [Qred ((x1 + x2) / 2); Qred ((y1 + y2) / 2); Qred (x2 - x1); Qred (y2 - y1)].

(** The Kalman gain of one position component and of its velocity. *)
Definition gain (k : block) : Q * Q :=
  let '(p, q, r, s) := k in
  let Sinv := Qred (/ Qred (Qred (Qred p) + 10)) in
  (Qred (Qred p * Sinv), Qred (Qred r * Sinv)).

Lemma update_state kf bbox k0 k1 k2 k3 v0 v1 v2 v3 v4 v5 v6 v7 :
  is_initialized kf = true ->
  kf_P kf = gblock k0 k1 k2 k3 ->
  block_ok k0 -> block_ok k1 -> block_ok k2 -> block_ok k3 ->
  kf_x kf = colvec [v0; v1; v2; v3; v4; v5; v6; v7] ->
  kf_x (fst (update kf bbox))
  = let z := observation bbox in
    let y i v := Qred (nth i z 0 - Qred v) in
    colvec [Qred (v0 + Qred (fst (gain k0) * y 0%nat v0));
            Qred (v1 + Qred (fst (gain k1) * y 1%nat v1));
            Qred (v2 + Qred (fst (gain k2) * y 2%nat v2));
            Qred (v3 + Qred (fst (gain k3) * y 3%nat v3));
            Qred (v4 + Qred (snd (gain k0) * y 0%nat v0));
            Qred (v5 + Qred (snd (gain k1) * y 1%nat v1));
            Qred (v6 + Qred (snd (gain k2) * y 2%nat v2));
            Qred (v7 + Qred (snd (gain k3) * y 3%nat v3))].
Proof.
  intros Hi HP H0 H1 H2 H3 Hx. destruct bbox as [[[x1 y1] x2] y2].
  unfold update. rewrite Hi, HP, Hx. cbn [negb].
  rewrite H_gblock, hblock_Ht, diag4_R. cbn [fst snd].
  rewrite inv_diag4 by (now apply gain_nonzero).
  cbn [fst snd kf_x].
  rewrite gblock_Ht, vblock_diag4, H_colvec.
  change [[Qred ((x1 + x2) / 2)]; [Qred ((y1 + y2) / 2)];
          [Qred (x2 - x1)]; [Qred (y2 - y1)]]
    with (colvec [Qred ((x1 + x2) / 2); Qred ((y1 + y2) / 2);
                  Qred (x2 - x1); Qred (y2 - y1)]).
  rewrite msub_colvec4, vblock_colvec, madd_colvec8.
  destruct k0 as [[[p0 q0] r0] s0], k1 as [[[p1 q1] r1] s1],
           k2 as [[[p2 q2] r2] s2], k3 as [[[p3 q3] r3] s3].
  reflexivity.
Qed.

Lemma x_shape_reachable kf : reachable kf -> x_shape kf.
Proof.
  induction 1 as [| kf bbox _ _ | kf Hr IH | kf bbox Hr IH].
  - now exists 0, 0, 0, 0, 0, 0, 0, 0.
  - destruct bbox as [[[x1 y1] x2] y2]. cbn. unfold x_shape. cbn.
    now do 8 eexists.
  - destruct IH as (v0 & v1 & v2 & v3 & v4 & v5 & v6 & v7 & Hx).
    unfold predict. destruct (is_initialized kf); cbn [negb fst].
    + unfold x_shape. cbn [kf_x]. rewrite Hx, F_colvec. now do 8 eexists.
    + now exists v0, v1, v2, v3, v4, v5, v6, v7.
  - destruct IH as (v0 & v1 & v2 & v3 & v4 & v5 & v6 & v7 & Hx).
    destruct (is_initialized kf) eqn:Hi.
    + destruct (reachable_P_inv kf Hr)
        as (k0 & k1 & k2 & k3 & HP & H0 & H1 & H2 & H3).
      unfold x_shape.
      rewrite (update_state kf bbox k0 k1 k2 k3 v0 v1 v2 v3 v4 v5 v6 v7
                 Hi HP H0 H1 H2 H3 Hx).
      cbv zeta. now do 8 eexists.
    + unfold update. rewrite Hi. cbn [negb fst].
      destruct bbox as [[[x1 y1] x2] y2]. unfold x_shape. cbn.
      now do 8 eexists.
Qed.


Lemma entry_colvec l i : entry (colvec l) i 0 = nth i l 0.
Proof.
  unfold entry, colvec. revert i. induction l as [|a l IH]; intros [|i];
    try reflexivity. cbn. apply IH.
Qed.


(** The correction step on an initialised filter of known covariance. *)
Lemma initialized_update kf bbox :
  reachable kf -> is_initialized kf = true ->
  exists k0 k1 k2 k3 v0 v1 v2 v3 v4 v5 v6 v7,
    kf_P kf = gblock k0 k1 k2 k3
    /\ block_ok k0 /\ block_ok k1 /\ block_ok k2 /\ block_ok k3
    /\ kf_x kf = colvec [v0; v1; v2; v3; v4; v5; v6; v7]
    /\ snd (update kf bbox) = Returns tt
    /\ kf_P (fst (update kf bbox))
       = gblock (update_block k0) (update_block k1)
                (update_block k2) (update_block k3).
Proof.
  intros Hr Hi.
  destruct (reachable_P_inv kf Hr)
    as (k0 & k1 & k2 & k3 & HP & H0 & H1 & H2 & H3).
  destruct (x_shape_reachable kf Hr)
    as (v0 & v1 & v2 & v3 & v4 & v5 & v6 & v7 & Hx).
  destruct (update_gblock kf bbox k0 k1 k2 k3 Hi HP H0 H1 H2 H3)
    as (Hret & _ & HP').
  exists k0, k1, k2, k3, v0, v1, v2, v3, v4, v5, v6, v7.
  repeat split; assumption.
Qed.

End KalmanFacts.


Definition predicted_filter : Kalman.KalmanFilter :=
  fst (Kalman.predict (Kalman.initialize Kalman.new cup_box)).

Lemma predicted_filter_reachable : Covariance.reachable predicted_filter.
Proof.
  exact (Covariance.reach_predict _
           (Covariance.reach_initialize _ _ Covariance.reach_new)).
Qed.


(** X16.  On such a filter, [update] moves each of the four observed
    state components (centre x, centre y, width, height) towards the
    observation without overshooting: the error after the call is the
    error before it times [10 / (P[i][i] + 10)], a factor strictly between
    0 and 1. *)
Theorem update_contracts_error :
  forall (kf : Kalman.KalmanFilter) (bbox : BBox) (i : nat),
    Covariance.reachable kf ->
    Kalman.is_initialized kf = true ->
    (i < 4)%nat ->
    let z := nth i (KalmanFacts.observation bbox) 0 in
    let g := 10 / (Mat.entry (Kalman.kf_P kf) i i + 10) in
    0 < g /\ g < 1
    /\ Mat.entry (Kalman.kf_x (fst (Kalman.update kf bbox))) i 0 - z
       == g * (Mat.entry (Kalman.kf_x kf) i 0 - z).
Proof.
  intros kf bbox i Hr Hi Hlt.
  destruct (KalmanFacts.initialized_update kf bbox Hr Hi)
    as (k0 & k1 & k2 & k3 & v0 & v1 & v2 & v3 & v4 & v5 & v6 & v7
        & HP & H0 & H1 & H2 & H3 & Hx & _ & _).
  rewrite (KalmanFacts.update_state kf bbox k0 k1 k2 k3
             v0 v1 v2 v3 v4 v5 v6 v7 Hi HP H0 H1 H2 H3 Hx).
  rewrite HP, Hx, !KalmanFacts.entry_colvec,
    Covariance.entry_gblock_diag by exact Hlt.
  cbv zeta.
  assert (Hgen : forall k v z,
             Covariance.block_ok k ->
             0 < 10 / (fst (fst (fst k)) + 10)
             /\ 10 / (fst (fst (fst k)) + 10) < 1
             /\ Qred (v + Qred (fst (KalmanFacts.gain k)
                                * Qred (z - Qred v))) - z
                == 10 / (fst (fst (fst k)) + 10) * (v - z)).
  { intros [[[p q] r] s] v z (Hp & _). cbn. rewrite !Qred_correct.
    assert (Ht : 0 < / (p + 10)) by (apply Qinv_lt_0_compat; lra).
    assert (E : (p + 10) * / (p + 10) == 1) by (apply Qmult_inv_r; lra).
    unfold Qdiv. set (t := / (p + 10)) in *. clearbody t.
    assert (Ep : p * t == 1 - 10 * t) by lra.
    assert (0 < p * t) by (apply Qmult_lt_0_compat; lra).
    split; [lra|]. split; [lra|].
    setoid_replace (v + p * t * (z - v) - z)
      with (p * t * (z - v) + (v - z)) by ring.
    rewrite Ep. ring. }
  destruct i as [|[|[|[|i]]]]; cbn [nth]; try (now apply Hgen). lia.
Qed.

Lemma update_contracts_error_witness :
  let z := nth 0 (KalmanFacts.observation (110, 100, 210, 200)) 0 in
  let g := 10 / (Mat.entry (Kalman.kf_P predicted_filter) 0 0 + 10) in
  0 < g /\ g < 1
  /\ Mat.entry (Kalman.kf_x (fst (Kalman.update predicted_filter
                                    (110, 100, 210, 200)))) 0 0 - z
     == g * (Mat.entry (Kalman.kf_x predicted_filter) 0 0 - z).
Proof.
  apply (update_contracts_error predicted_filter (110, 100, 210, 200) 0).
  - exact predicted_filter_reachable.
  - reflexivity.
  - lia.
Defined.

Lemma predict_state :
  forall kf v0 v1 v2 v3 v4 v5 v6 v7,
    Kalman.is_initialized kf = true ->
    Kalman.kf_x kf = KalmanFacts.colvec [v0; v1; v2; v3; v4; v5; v6; v7] ->
    Kalman.kf_x (fst (Kalman.predict kf))
    = KalmanFacts.colvec
        [Qred (v0 + v4); Qred (v1 + v5); Qred (v2 + v6); Qred (v3 + v7);
         Qred v4; Qred v5; Qred v6; Qred v7]
    /\ Kalman.is_initialized (fst (Kalman.predict kf)) = true.
Proof.
  intros kf v0 v1 v2 v3 v4 v5 v6 v7 Hi Hx. unfold Kalman.predict.
  rewrite Hi. cbn [negb fst Kalman.kf_x Kalman.is_initialized].
  now rewrite Hx, KalmanFacts.F_colvec.
Qed.

Lemma predict_n_initialized :
  forall n kf,
    Kalman.is_initialized kf = true ->
    Kalman.is_initialized (Covariance.predict_n n kf) = true.
Proof.
  induction n as [|n IH]; intros kf Hi; [exact Hi|].
  cbn [Covariance.predict_n].
  destruct (predict_initialized _ (IH kf Hi)) as [_ [_ H]]. exact H.
Qed.

(** X17.  Constant-velocity extrapolation.  On an initialised reachable
    filter, [n] consecutive calls of [predict] (no [update] in between)
    leave the four velocity components as they were and advance each
    position component by [n] times its velocity. *)
Theorem predict_extrapolates_linearly :
  forall (kf : Kalman.KalmanFilter) (n i : nat),
    Covariance.reachable kf ->
    Kalman.is_initialized kf = true ->
    (i < 4)%nat ->
    let x := Kalman.kf_x kf in
    let x' := Kalman.kf_x (Covariance.predict_n n kf) in
    Mat.entry x' (i + 4) 0 == Mat.entry x (i + 4) 0
    /\ Mat.entry x' i 0
       == Mat.entry x i 0 + inject_Z (Z.of_nat n) * Mat.entry x (i + 4) 0.
Proof.
  intros kf n i Hr Hi Hlt. cbv zeta.
  induction n as [|n IH].
  - cbn [Covariance.predict_n]. split; [reflexivity|].
    change (inject_Z (Z.of_nat 0)) with 0. ring.
  - destruct IH as [IHv IHp].
    pose proof (Covariance.reachable_predict_n n kf Hr) as Hrn.
    pose proof (predict_n_initialized n kf Hi) as Hin.
    destruct (KalmanFacts.x_shape_reachable _ Hrn)
      as (v0 & v1 & v2 & v3 & v4 & v5 & v6 & v7 & Hx).
    cbn [Covariance.predict_n].
    destruct (predict_state _ v0 v1 v2 v3 v4 v5 v6 v7 Hin Hx) as [Hx' _].
    rewrite Hx'. rewrite Hx in IHv, IHp.
    rewrite !KalmanFacts.entry_colvec in *.
    rewrite Nat2Z.inj_succ, <- Z.add_1_r, inject_Z_plus.
    change (inject_Z 1) with 1.
    destruct i as [|[|[|[|i]]]]; [| | | |lia];
      cbn [nth Nat.add] in *; rewrite !Qred_correct;
      rewrite <- IHv; (split; [reflexivity|]); rewrite IHp, <- IHv; ring.
Qed.

Lemma predict_extrapolates_linearly_witness :
  let x := Kalman.kf_x corrected_filter in
  let x' := Kalman.kf_x (Covariance.predict_n 5 corrected_filter) in
  Mat.entry x' (0 + 4) 0 == Mat.entry x (0 + 4) 0
  /\ Mat.entry x' 0 0
     == Mat.entry x 0 0 + inject_Z (Z.of_nat 5) * Mat.entry x (0 + 4) 0.
Proof.
  apply (predict_extrapolates_linearly corrected_filter 5 0).
  - exact (Covariance.reach_update _ _
             (Covariance.reach_predict _
                (Covariance.reach_initialize _ _ Covariance.reach_new))).
  - apply update_initialized.
  - lia.
Defined.

Lemma seeded_state_is_fixed :
  forall n kf bbox,
    Kalman.kf_x (Covariance.predict_n n (Kalman.initialize kf bbox))
    = Kalman.kf_x (Kalman.initialize kf bbox)
    /\ Kalman.is_initialized
         (Covariance.predict_n n (Kalman.initialize kf bbox)) = true.
Proof.
  intros n kf [[[x1 y1] x2] y2].
  induction n as [|n [IHx IHi]]; [split; reflexivity|].
  cbn [Covariance.predict_n]. unfold Kalman.predict.
  rewrite IHi. cbn [negb fst Kalman.kf_x Kalman.is_initialized].
  split; [|reflexivity]. rewrite IHx.
  cbn [Kalman.initialize Kalman.kf_x].
  change [[Qred ((x1 + x2) / 2)]; [Qred ((y1 + y2) / 2)];
          [Qred (x2 - x1)]; [Qred (y2 - y1)]; [0]; [0]; [0]; [0]]
    with (KalmanFacts.colvec
            [Qred ((x1 + x2) / 2); Qred ((y1 + y2) / 2);
             Qred (x2 - x1); Qred (y2 - y1); 0; 0; 0; 0]).
  rewrite KalmanFacts.F_colvec.
  KalmanFacts.vec_eq; rewrite ?Qred_correct; ring.
Qed.

(** X18.  A filter that has just been seeded stands still: after
    [initialize] on any filter, however many times [predict] is called,
    each call returns the seed box (same value in every coordinate). *)
Theorem seeded_filter_predicts_seed :
  forall (kf : Kalman.KalmanFilter) (bbox : BBox) (n : nat),
    exists b,
      snd (Kalman.predict
             (Covariance.predict_n n (Kalman.initialize kf bbox)))
      = Some b
      /\ BBox_eq b bbox.
Proof.
  intros kf bbox n.
  destruct (seeded_state_is_fixed (S n) kf bbox) as [Hx _].
  destruct (seeded_state_is_fixed n kf bbox) as [_ Hi].
  cbn [Covariance.predict_n] in Hx.
  unfold Kalman.predict in *. rewrite Hi in *.
  cbn [negb fst snd Kalman.kf_x] in *.
  eexists. split; [reflexivity|]. rewrite Hx.
  destruct bbox as [[[x1 y1] x2] y2].
  unfold Kalman.bbox_of_state, Mat.entry, BBox_eq. cbn.
  rewrite !Qred_correct. repeat split; field.
Qed.



(** ** Label lines *)

Lemma clamp_range : forall v, 0 <= py_max 0 (py_min 1 v) <= 1.
Proof.
  intros v. unfold py_max, py_min. split.
  - apply Q.le_max_l.
  - apply Q.max_lub; [lra | apply Q.le_min_l].
Qed.

Lemma clamp_inside : forall v, 0 <= v <= 1 -> py_max 0 (py_min 1 v) == v.
Proof.
  intros v [H0 H1]. unfold py_max, py_min.
  rewrite (Q.min_r 1 v H1). now apply Q.max_r.
Qed.

Definition line_in_unit_square (l : YoloLine) : Prop :=
  0 <= yl_center_x l <= 1 /\ 0 <= yl_center_y l <= 1
  /\ 0 <= yl_width l <= 1 /\ 0 <= yl_height l <= 1.

Lemma convert_in_unit_square :
  forall tracking_box image_width image_height,
    line_in_unit_square
      (convert_to_yolo_format tracking_box image_width image_height).
Proof.
  intros tb w h. unfold convert_to_yolo_format, line_in_unit_square.
  cbn. repeat split; apply clamp_range.
Qed.

Definition sample_box : TrackingBox :=
  {| tb_track_id := 0; tb_x1 := 100; tb_y1 := 120; tb_x2 := 200;
     tb_y2 := 180; tb_confidence := 0.9; tb_class_id := 41;
     tb_class_name := "cup"; tb_frame_id := 3 |}.

(** X20.  For an image of positive width and height, whatever the tracking
    box (even one outside the image, or inverted), the label line keeps the
    class id of the box and each of its four geometry values lies in
    [0, 1]. *)
Theorem yolo_line_in_unit_square :
  forall (tracking_box : TrackingBox) (image_width image_height : Z),
    (0 < image_width)%Z -> (0 < image_height)%Z ->
    let line :=
      convert_to_yolo_format tracking_box image_width image_height in
    yl_class_id line = tb_class_id tracking_box
    /\ line_in_unit_square line.
Proof.
  intros tb w h _ _. cbv zeta. split.
  - reflexivity.
  - apply convert_in_unit_square.
Qed.

Lemma yolo_line_in_unit_square_witness :
  let line := convert_to_yolo_format sample_box 640 480 in
  yl_class_id line = tb_class_id sample_box
  /\ line_in_unit_square line.
Proof.
  apply (yolo_line_in_unit_square sample_box 640 480); lia.
Defined.

(** X21.  For a box that lies inside an image of positive width [W] and
    height [H], nothing is clamped and the label line loses nothing: the
    four corners are recovered from it as [(cx - w/2) * W] and so on. *)
Theorem yolo_line_recovers_box :
  forall (tracking_box : TrackingBox) (image_width image_height : Z),
    (0 < image_width)%Z -> (0 < image_height)%Z ->
    0 <= tb_x1 tracking_box -> tb_x1 tracking_box <= tb_x2 tracking_box ->
    tb_x2 tracking_box <= inject_Z image_width ->
    0 <= tb_y1 tracking_box -> tb_y1 tracking_box <= tb_y2 tracking_box ->
    tb_y2 tracking_box <= inject_Z image_height ->
    let line :=
      convert_to_yolo_format tracking_box image_width image_height in
    let W := inject_Z image_width in
    let H := inject_Z image_height in
    (yl_center_x line - yl_width line / 2) * W == tb_x1 tracking_box
    /\ (yl_center_y line - yl_height line / 2) * H == tb_y1 tracking_box
    /\ (yl_center_x line + yl_width line / 2) * W == tb_x2 tracking_box
    /\ (yl_center_y line + yl_height line / 2) * H == tb_y2 tracking_box.
Proof.
  intros tb w h Hw Hh Hx1 Hx Hx2 Hy1 Hy Hy2. cbv zeta.
  unfold convert_to_yolo_format. cbn.
  assert (HW : 0 < inject_Z w).
  { change 0 with (inject_Z 0). now rewrite <- Zlt_Qlt. }
  assert (HH : 0 < inject_Z h).
  { change 0 with (inject_Z 0). now rewrite <- Zlt_Qlt. }
  set (W := inject_Z w) in *. set (H := inject_Z h) in *.
  clearbody W H.
  assert (Hlen : forall a b V, 0 <= a -> a <= b -> b <= V -> 0 < V ->
                       0 <= (b - a) / V <= 1).
  { intros a b V Ha Hab Hb HV. split.
    - apply Qle_shift_div_l; lra.
    - apply Qle_shift_div_r; lra. }
  assert (Hmid : forall a b V, 0 <= a -> a <= b -> b <= V -> 0 < V ->
                       0 <= (a + b) / 2 / V <= 1).
  { intros a b V Ha Hab Hb HV.
    assert (E : (a + b) / 2 == (a + b) * (1 # 2)) by field.
    split.
    - apply Qle_shift_div_l; [lra|]. rewrite E. lra.
    - apply Qle_shift_div_r; [lra|]. rewrite E. lra. }
  rewrite !clamp_inside by first [now apply Hlen | now apply Hmid].
  repeat split; field; lra.
Qed.

Lemma yolo_line_recovers_box_witness :
  let line := convert_to_yolo_format sample_box 640 480 in
  let W := inject_Z 640 in
  let H := inject_Z 480 in
  (yl_center_x line - yl_width line / 2) * W == tb_x1 sample_box
  /\ (yl_center_y line - yl_height line / 2) * H == tb_y1 sample_box
  /\ (yl_center_x line + yl_width line / 2) * W == tb_x2 sample_box
  /\ (yl_center_y line + yl_height line / 2) * H == tb_y2 sample_box.
Proof.
  apply (yolo_line_recovers_box sample_box 640 480);
    first [lia | qdec].
Defined.

(** ** The annotator over its reachable states *)

(** The annotators the operations of [VideoAutoAnnotator] can produce
    from frames of positive width and height; with [resets = false], those
    produced without [reset_tracker]. *)
Inductive annotator_reachable (resets : bool) : VideoAutoAnnotator -> Prop :=
| reach_new_annotator detect output_dir high_iou low_iou max_disappeared :
    annotator_reachable resets
      (new_annotator detect output_dir high_iou low_iou max_disappeared)
| reach_seed a image manual_boxes :
    annotator_reachable resets a ->
    annotator_reachable resets
      (fst (initialize_from_manual_annotation a image manual_boxes))
| reach_frame a image frame_name save_annotation save_image :
    (0 < img_width image)%Z -> (0 < img_height image)%Z ->
    annotator_reachable resets a ->
    annotator_reachable resets
      (fst (process_frame a image frame_name save_annotation save_image))
| reach_reset_tracker a :
    resets = true ->
    annotator_reachable resets a ->
    annotator_reachable resets (reset_tracker a).

Lemma annotator_reachable_weaken :
  forall a, annotator_reachable false a -> annotator_reachable true a.
Proof.
  induction 1.
  - apply reach_new_annotator.
  - now apply reach_seed.
  - now apply reach_frame.
  - discriminate.
Qed.

Lemma annotator_tracker_reachable :
  forall resets a,
    annotator_reachable resets a -> tracker_reachable (tracker a).
Proof.
  induction 1 as [| a image boxes _ IH | a image name sa si _ _ _ IH
                 | a _ _ IH].
  - apply reach_new_tracker.
  - destruct boxes as [|b others]; [exact IH|].
    cbn. now apply reach_initialize_target.
  - unfold process_frame.
    destruct (is_initialized a); cbn [negb]; [|exact IH].
    pose proof (reach_tracker_update (tracker a) (detector a image)
                  (frame_count a) IH) as Hu.
    destruct (update (tracker a) (detector a image) (frame_count a))
      as [tracker1 [results|e]]; cbn [fst] in Hu.
    + destruct (if (sa && truthy name)%bool then _ else _)
        as [[files2 console2] saved]. exact Hu.
    + exact Hu.
  - cbn. now apply reach_reset.
Qed.

Lemma update_results_shape :
  forall self detections frame_id,
    tracker_reachable self ->
    exists results,
      snd (update self detections frame_id) = Returns results
      /\ (results = []
          \/ exists tb,
               results = [tb]
               /\ tb_frame_id tb = frame_id /\ tb_track_id tb = 0%Z).
Proof.
  intros self detections frame_id Hreach.
  pose proof (tracker_reachable_ok self Hreach) as [I1 _ _ _ _].
  destruct (reachable_update_outcomes self detections frame_id Hreach)
    as [[Hd ->]|(t & Htr & Ht & [(m & kf' & b & _ & ->)
                                |[(kf & _ & _ & ->)|(kf & _ & _ & ->)]])];
    eexists; (split; [reflexivity|]); auto; right; eexists;
    (split; [reflexivity|]);
    match goal with
    | |- context [box_tracking ?s ?t ?b ?c ?f] =>
        destruct (box_tracking_fields s t b c f) as (H1 & H2 & _)
    end; rewrite H1, H2; auto.
Qed.

(** What [process_frame] does on a seeded annotator whose tracker is
    reachable: [update] returns, so the call goes through to its end. *)
Lemma process_frame_seeded :
  forall a image frame_name sa si,
    tracker_reachable (tracker a) ->
    is_initialized a = true ->
    exists tracker1 results files2 console2 saved a',
      update (tracker a) (detector a image) (frame_count a)
      = (tracker1, Returns results)
      /\ (if (sa && truthy frame_name)%bool
          then save_frame_annotation (output_dir a)
                 (if (si && truthy frame_name)%bool
                  then write_file
                         (images_path (output_dir a) (name_of frame_name))
                         (ImageFile image) (files a)
                  else files a)
                 (console a) (name_of frame_name) results
                 (img_width image) (img_height image)
          else (if (si && truthy frame_name)%bool
                then write_file
                       (images_path (output_dir a) (name_of frame_name))
                       (ImageFile image) (files a)
                else files a, console a, false))
         = (files2, console2, saved)
      /\ process_frame a image frame_name sa si = (a', Returns results)
      /\ tracker a' = tracker1
      /\ frame_count a' = (frame_count a + 1)%Z
      /\ tracking_history a' = tracking_history a ++ results
      /\ is_initialized a' = true
      /\ output_dir a' = output_dir a
      /\ detector a' = detector a
      /\ files a' = files2
      /\ console a' = console2
      /\ total_frames (statistics a') = (frame_count a + 1)%Z
      /\ successful_tracks (statistics a')
         = (if nonempty results
            then successful_tracks (statistics a) + 1
            else successful_tracks (statistics a))%Z
      /\ lost_tracks (statistics a')
         = (if nonempty results
            then lost_tracks (statistics a)
            else lost_tracks (statistics a) + 1)%Z
      /\ saved_images (statistics a')
         = (if (si && truthy frame_name)%bool
            then saved_images (statistics a) + 1
            else saved_images (statistics a))%Z
      /\ saved_annotations (statistics a')
         = (if saved then saved_annotations (statistics a) + 1
            else saved_annotations (statistics a))%Z
      /\ saved_labels (statistics a')
         = (if saved then saved_labels (statistics a) + 1
            else saved_labels (statistics a))%Z
      /\ confidence_sum (statistics a')
         = sum_confidence results (confidence_sum (statistics a))
      /\ total_detections (statistics a')
         = (total_detections (statistics a)
            + Z.of_nat (List.length (detector a image)))%Z.
Proof.
  intros a image frame_name sa si Hreach Hinit.
  destruct (update_results_shape (tracker a) (detector a image)
              (frame_count a) Hreach) as (results & Hret & _).
  unfold process_frame. rewrite Hinit. cbn [negb].
  destruct (update (tracker a) (detector a image) (frame_count a))
    as [tracker1 r]. cbn [snd] in Hret. subst r.
  destruct (if (sa && truthy frame_name)%bool then _ else _)
    as [[files2 console2] saved] eqn:Esave.
  exists tracker1, results, files2, console2, saved. eexists.
  split; [reflexivity|]. split; [exact Esave|]. split; [reflexivity|].
  cbn. repeat split; trivial.
  destruct results; reflexivity.
Qed.


(** Frame ids strictly increase along the history and stay below the
    frame counter; the track id is always 0. *)
Definition history_ok (frame_count : Z) (l : list TrackingBox) : Prop :=
  StronglySorted Z.lt (map tb_frame_id l)
  /\ Forall (fun tb => (0 <= tb_frame_id tb < frame_count)%Z
                       /\ tb_track_id tb = 0%Z) l.

Lemma history_ok_snoc :
  forall fc l tb,
    (0 <= fc)%Z ->
    history_ok fc l ->
    tb_frame_id tb = fc -> tb_track_id tb = 0%Z ->
    history_ok (fc + 1) (l ++ [tb]).
Proof.
  intros fc l tb Hfc [Hs Hf] Hid Htid. split.
  - clear Htid. induction l as [|x l IH]; cbn.
    + repeat constructor.
    + inversion Hs as [|? ? Hs' Hx]; subst. inversion Hf as [|? ? Hfx Hf'];
        subst. constructor; [now apply IH|].
      rewrite map_app. apply Forall_app. split; [exact Hx|].
      repeat constructor. cbn. lia.
  - apply Forall_app. split.
    + eapply Forall_impl; [|exact Hf]. cbn. intros x [H1 H2]. split; [lia|auto].
    + repeat constructor; [lia | lia | exact Htid].
Qed.

Lemma history_ok_step :
  forall fc l, history_ok fc l -> history_ok (fc + 1) l.
Proof.
  intros fc l [Hs Hf]. split; [exact Hs|].
  eapply Forall_impl; [|exact Hf]. cbn. intros x [H1 H2]. split; [lia|auto].
Qed.

(** A label file holds exactly one line, inside the unit square. *)
Definition file_ok (f : string * FileContent) : Prop :=
  match snd f with
  | LabelFile lines => exists l, lines = [l] /\ line_in_unit_square l
  | ImageFile _ => True
  end.

Lemma write_file_ok :
  forall path c fs,
    file_ok (path, c) -> Forall file_ok fs ->
    Forall file_ok (write_file path c fs)
    /\ (List.length (label_files (write_file path c fs))
        <= S (List.length (label_files fs)))%nat
    /\ (is_label_file (path, c) = false ->
        List.length (label_files (write_file path c fs))
        <= List.length (label_files fs))%nat.
Proof.
  intros path c fs Hc Hfs. unfold write_file, label_files.
  assert (Hlen : (List.length
                    (filter is_label_file
                       (filter (fun f => negb (fst f =? path)%string) fs))
                  <= List.length (filter is_label_file fs))%nat).
  { clear. induction fs as [|x fs IH]; cbn; [lia|].
    destruct (negb (fst x =? path)%string); cbn;
      destruct (is_label_file x); cbn; lia. }
  split; [|split].
  - constructor; [exact Hc|].
    apply Forall_forall. intros x Hx. apply filter_In in Hx as [Hx _].
    revert x Hx. now apply Forall_forall.
  - cbn [filter]. destruct (is_label_file (path, c)); cbn [List.length]; lia.
  - intros E. cbn [filter]. rewrite E. exact Hlen.
Qed.

Record annotator_ok (a : VideoAutoAnnotator) : Prop := {
  aok_frame_count : (0 <= frame_count a)%Z;
  aok_history : history_ok (frame_count a) (tracking_history a);
  aok_counters :
    let st := statistics a in
    (0 <= saved_annotations st
     /\ saved_labels st = saved_annotations st
     /\ saved_annotations st <= successful_tracks st
     /\ 0 <= saved_images st <= successful_tracks st + lost_tracks st
     /\ 0 <= lost_tracks st)%Z;
  aok_files :
    Forall file_ok (files a)
    /\ (Z.of_nat (List.length (label_files (files a)))
        <= saved_annotations (statistics a))%Z;
  aok_init : is_tracking (tracker a) = true -> is_initialized a = true
}.

Lemma new_annotator_ok :
  forall detect od h l m, annotator_ok (new_annotator detect od h l m).
Proof.
  intros. constructor; cbn; try lia; try easy;
    split; first [constructor | lia].
Qed.

Lemma seed_fields :
  forall a image b others,
    let a' := fst (initialize_from_manual_annotation a image (b :: others)) in
    frame_count a' = (frame_count a + 1)%Z
    /\ tracking_history a' = tracking_history a ++ [seed_result a b]
    /\ files a' = files a
    /\ is_initialized a' = true
    /\ tracker a' = initialize_target (tracker a) b (frame_count a)
    /\ saved_annotations (statistics a') = saved_annotations (statistics a)
    /\ saved_labels (statistics a') = saved_labels (statistics a)
    /\ saved_images (statistics a') = saved_images (statistics a)
    /\ successful_tracks (statistics a') = successful_tracks (statistics a)
    /\ lost_tracks (statistics a') = lost_tracks (statistics a)
    /\ total_frames (statistics a') = total_frames (statistics a)
    /\ confidence_sum (statistics a')
       = sum_confidence [seed_result a b] (confidence_sum (statistics a)).
Proof. intros. repeat split. Qed.

Lemma seed_ok :
  forall a image manual_boxes,
    tracker_reachable (tracker a) ->
    annotator_ok a ->
    annotator_ok (fst (initialize_from_manual_annotation a image
                         manual_boxes)).
Proof.
  intros a image [|b others] Hreach [H1 H2 H3 H4 H5].
  - constructor; assumption.
  - pose proof (tracker_reachable_ok _ Hreach) as [Hid _ _ _ _].
    destruct (seed_fields a image b others)
      as (Hfc & Hh & Hf & Hi & _ & Ha & Hl & Him & Hs & Hlo & _ & _).
    constructor.
    + rewrite Hfc. lia.
    + rewrite Hfc, Hh. now apply history_ok_snoc.
    + cbv zeta. rewrite Ha, Hl, Him, Hs, Hlo. exact H3.
    + rewrite Hf, Ha. exact H4.
    + intros _. exact Hi.
Qed.

Lemma reset_tracker_ok :
  forall a, annotator_ok a -> annotator_ok (reset_tracker a).
Proof.
  intros a [H1 H2 H3 H4 H5]. constructor; cbn; trivial; try lia; try easy.
  split; constructor.
Qed.

Lemma process_frame_ok :
  forall a image frame_name sa si,
    tracker_reachable (tracker a) ->
    annotator_ok a ->
    annotator_ok (fst (process_frame a image frame_name sa si)).
Proof.
  intros a image frame_name sa si Hreach [H1 H2 H3 H4 H5].
  destruct (is_initialized a) eqn:Hinit.
  2:{ unfold process_frame. rewrite Hinit. cbn [negb fst].
      rewrite <- Hinit in H5. constructor; assumption. }
  destruct (process_frame_seeded a image frame_name sa si Hreach Hinit)
    as (tracker1 & results & files2 & console2 & saved & a'
        & Hupd & Hsave & -> & Ht & Hfc & Hh & Hi & _ & _ & Hf & _
        & _ & Hsucc & Hlost & Himg & Hann & Hlab & _ & _).
  cbn [fst].
  destruct (update_results_shape (tracker a) (detector a image)
              (frame_count a) Hreach) as (results' & Hret & Hshape).
  rewrite Hupd in Hret. cbn in Hret. inversion Hret; subst results'.
  clear Hret.
  cbv zeta in H3. destruct H3 as (C1 & C2 & C3 & C4 & C5).
  destruct H4 as [F1 F2].
  set (files1 := if (si && truthy frame_name)%bool
                 then write_file _ _ _ else files a) in *.
  assert (Hfiles1 : Forall file_ok files1
                    /\ (List.length (label_files files1)
                        <= List.length (label_files (files a)))%nat).
  { subst files1. destruct (si && truthy frame_name)%bool; [|auto].
    destruct (write_file_ok (images_path (output_dir a) (name_of frame_name))
                (ImageFile image) (files a) I F1) as (W1 & _ & W3).
    split; [exact W1 | now apply W3]. }
  destruct Hfiles1 as [G1 G2]. clearbody files1.
  assert (Hsaved : Forall file_ok files2
                   /\ (Z.of_nat (List.length (label_files files2))
                       <= (if saved then saved_annotations (statistics a) + 1
                           else saved_annotations (statistics a)))%Z
                   /\ (saved = true -> nonempty results = true)).
  { destruct (sa && truthy frame_name)%bool.
    - destruct Hshape as [->|(tb & -> & _)].
      + rewrite save_frame_annotation_empty in Hsave.
        injection Hsave as Ef _ Es. rewrite <- Ef, <- Es.
        repeat split; trivial; first [lia | discriminate].
      + cbn [save_frame_annotation map] in Hsave.
        injection Hsave as Ef _ Es. rewrite <- Ef, <- Es.
        destruct (write_file_ok
                    (labels_path (output_dir a) (name_of frame_name))
                    (LabelFile
                       [convert_to_yolo_format tb (img_width image)
                                               (img_height image)])
                    files1) as (W1 & W2 & _); trivial.
        { cbn. eexists. split; [reflexivity|].
          apply convert_in_unit_square. }
        repeat split; trivial; lia.
    - injection Hsave as Ef _ Es. rewrite <- Ef, <- Es.
      repeat split; trivial; first [lia | discriminate]. }
  destruct Hsaved as (S1 & S2 & S3).
  constructor.
  - lia.
  - rewrite Hfc, Hh. destruct Hshape as [->|(tb & -> & Hid & Htid)].
    + rewrite app_nil_r. now apply history_ok_step.
    + now apply history_ok_snoc.
  - cbv zeta. rewrite Hsucc, Hlost, Himg, Hann, Hlab.
    destruct saved.
    + rewrite (S3 eq_refl).
      destruct (si && truthy frame_name)%bool; lia.
    + destruct (nonempty results), (si && truthy frame_name)%bool; lia.
  - rewrite Hf, Hann. split; assumption.
  - intros _. exact Hi.
Qed.

Lemma annotator_reachable_ok :
  forall resets a, annotator_reachable resets a -> annotator_ok a.
Proof.
  induction 1 as [| a image boxes Hr IH | a image name sa si _ _ Hr IH
                 | a _ Hr IH].
  - apply new_annotator_ok.
  - apply seed_ok; [|exact IH].
    exact (annotator_tracker_reachable _ _ Hr).
  - apply process_frame_ok; [|exact IH].
    exact (annotator_tracker_reachable _ _ Hr).
  - now apply reset_tracker_ok.
Qed.

(** ** Sessions *)


(** What holds of an annotator as long as [reset_tracker] is not called:
    the frame counters bound one another, and the confidence sum is the sum
    over the history. *)
Record session_ok (a : VideoAutoAnnotator) : Prop := {
  sok_counts :
    (0 <= successful_tracks (statistics a)
     /\ 0 <= lost_tracks (statistics a)
     /\ successful_tracks (statistics a) + lost_tracks (statistics a)
        <= total_frames (statistics a)
     /\ total_frames (statistics a) <= frame_count a)%Z;
  sok_seeded :
    is_initialized a = true ->
    (successful_tracks (statistics a) + lost_tracks (statistics a)
     < frame_count a)%Z;
  sok_strict :
    (0 < total_frames (statistics a))%Z ->
    (successful_tracks (statistics a) + lost_tracks (statistics a)
     < total_frames (statistics a))%Z;
  sok_history :
    (successful_tracks (statistics a)
     <= Z.of_nat (List.length (tracking_history a)))%Z;
  sok_confidence :
    confidence_sum (statistics a) = sum_confidence (tracking_history a) 0
}.

Lemma sum_confidence_app :
  forall l1 l2 acc,
    sum_confidence (l1 ++ l2) acc = sum_confidence l2 (sum_confidence l1 acc).
Proof. intros. unfold sum_confidence. apply fold_left_app. Qed.

Lemma annotator_reachable_session :
  forall a, annotator_reachable false a -> session_ok a.
Proof.
  induction 1 as [| a image boxes Hr IH | a image name sa si _ _ Hr IH
                 | a Hres _ _]; [| | |discriminate].
  - constructor; cbn; try lia; try easy.
  - destruct boxes as [|b others].
    + destruct IH as [H1 H2 H3 H4 H5]. constructor; assumption.
    + destruct IH as [(C1 & C2 & C3 & C4) H2 H3 H4 H5].
      destruct (seed_fields a image b others)
        as (Hfc & Hh & _ & Hi & _ & _ & _ & _ & Hs & Hlo & Htf & Hc).
      constructor; rewrite ?Hfc, ?Hs, ?Hlo, ?Htf.
      * lia.
      * intros _. lia.
      * exact H3.
      * rewrite Hh, length_app. cbn [List.length]. lia.
      * rewrite Hc, Hh, sum_confidence_app, H5. reflexivity.
  - pose proof (annotator_tracker_reachable _ _ Hr) as Hreach.
    destruct IH as [(C1 & C2 & C3 & C4) H2 H3 H4 H5].
    destruct (is_initialized a) eqn:Hinit.
    2:{ unfold process_frame. rewrite Hinit. cbn [negb fst].
        constructor; cbn; trivial; [lia|].
        rewrite Hinit. discriminate. }
    destruct (process_frame_seeded a image name sa si Hreach Hinit)
      as (tracker1 & results & files2 & console2 & saved & a'
          & _ & _ & -> & _ & Hfc & Hh & Hi & _ & _ & _ & _
          & Htf & Hsucc & Hlost & _ & _ & _ & Hc & _).
    cbn [fst]. specialize (H2 eq_refl).
    constructor; rewrite ?Hfc, ?Hsucc, ?Hlost, ?Htf.
    + destruct (nonempty results); lia.
    + intros _. destruct (nonempty results); lia.
    + intros _. destruct (nonempty results); lia.
    + rewrite Hh, length_app. destruct results; cbn [nonempty List.length]; lia.
    + rewrite Hc, Hh, sum_confidence_app, H5. reflexivity.
Qed.

(** *** Sample sessions *)

Definition cup_detector : Image -> list DetectionBox :=
  fun _ => [confident_cup].

Definition cup_session : VideoAutoAnnotator :=
  fst (initialize_from_manual_annotation
         (new_annotator cup_detector "out" 0.3 0.15 30)
         blank_image [cup_seed]).

Definition cup_session_frame : VideoAutoAnnotator :=
  fst (process_frame cup_session blank_image (Some "f1"%string) true true).

Lemma cup_session_reachable : annotator_reachable false cup_session.
Proof.
  exact (reach_seed false _ blank_image [cup_seed]
           (reach_new_annotator false cup_detector "out" 0.3 0.15 30)).
Qed.

Lemma cup_session_frame_reachable :
  annotator_reachable false cup_session_frame.
Proof.
  exact (reach_frame false cup_session blank_image (Some "f1"%string)
           true true eq_refl eq_refl cup_session_reachable).
Qed.







(** X25.  Every label file in the output directory holds exactly one line,
    and the four geometry values of that line lie in [0, 1]; there are at
    most [saved_annotations] label files. *)
Theorem label_files_are_single_lines :
  forall resets a,
    annotator_reachable resets a ->
    Forall file_ok (files a)
    /\ (Z.of_nat (List.length (label_files (files a)))
        <= saved_annotations (statistics a))%Z.
Proof.
  intros resets a Hr.
  destruct (annotator_reachable_ok _ _ Hr) as [_ _ _ Hf _]. exact Hf.
Qed.

Lemma label_files_are_single_lines_witness :
  Forall file_ok (files cup_session_frame)
  /\ (Z.of_nat (List.length (label_files (files cup_session_frame)))
      <= saved_annotations (statistics cup_session_frame))%Z.
Proof.
  apply (label_files_are_single_lines false cup_session_frame).
  exact cup_session_frame_reachable.
Defined.



(** X27.  As long as [reset_tracker] is not called, [confidence_sum] is
    the sum, in order, of the confidences of the boxes of the history (the
    seed boxes with their confidence 1.0 included), and the history holds
    at least as many boxes as frames were counted as tracked. *)
Theorem confidence_sum_is_history_sum :
  forall a,
    annotator_reachable false a ->
    confidence_sum (statistics a) = sum_confidence (tracking_history a) 0
    /\ (successful_tracks (statistics a)
        <= Z.of_nat (List.length (tracking_history a)))%Z.
Proof.
  intros a Hr.
  destruct (annotator_reachable_session a Hr) as [_ _ _ H4 H5].
  split; assumption.
Qed.

Lemma confidence_sum_is_history_sum_witness :
  confidence_sum (statistics cup_session_frame)
  = sum_confidence (tracking_history cup_session_frame) 0
  /\ (successful_tracks (statistics cup_session_frame)
      <= Z.of_nat (List.length (tracking_history cup_session_frame)))%Z.
Proof.
  apply (confidence_sum_is_history_sum cup_session_frame).
  exact cup_session_frame_reachable.
Defined.
